(** * Library management system: the store and the catalogue operations

    A shallow embedding of [python_mini_project.py] (classes [FileStorage]
    and [LibrarySystem]) and the properties of its record-linking logic.

    Conventions of the embedding.
    - Python [int] is [Z]; Python [str] is [string], read as ASCII text
      (code points 0..127); a list of dicts is a [list] of records whose
      fields are the dict's keys.
    - The interpreter state an operation can touch is a [World]: the
      in-memory document [storage.data], the lines still to be read by
      [input()], the date [datetime.today()] answers, and the backing file.
    - An operation is a computation in the monad [M]: it threads the world
      and may raise a Python exception.  What a raised exception leaves in
      the world stays there, as in Python.
    - The methods print their verdict and return [None]; the embedding
      returns the verdict as an [outcome]. *)

From Stdlib Require Import ZArith List String Ascii Bool Lia Sorted.
Import ListNotations.
Local Open Scope string_scope.
Local Open Scope Z_scope.
Set Warnings "-register-all".

(** ** Python strings *)

Module PyStr.

Definition code (c : ascii) : Z := Z.of_N (N_of_ascii c).

(** [str.isspace] on ASCII: TAB..CR, FS..US and the blank. *)
Definition isspace (c : ascii) : bool :=
  let n := code c in
  ((9 <=? n) && (n <=? 13)) || ((28 <=? n) && (n <=? 31)) || (n =? 32).

(** C's [isspace], which [int()] uses to skip blanks in ASCII text. *)
Definition c_isspace (c : ascii) : bool :=
  let n := code c in
  ((9 <=? n) && (n <=? 13)) || (n =? 32).

Definition isupper (c : ascii) : bool :=
  let n := code c in (65 <=? n) && (n <=? 90).

Definition isdigit (c : ascii) : bool :=
  let n := code c in (48 <=? n) && (n <=? 57).

Definition lower_char (c : ascii) : ascii :=
  if isupper c then ascii_of_N (N_of_ascii c + 32) else c.

(** [s.lower()] *)
Fixpoint lower (s : string) : string :=
  match s with
  | EmptyString => EmptyString
  | String c r => String (lower_char c) (lower r)
  end.

Fixpoint lstrip_by (sp : ascii -> bool) (s : string) : string :=
  match s with
  | EmptyString => EmptyString
  | String c r => if sp c then lstrip_by sp r else s
  end.

Fixpoint rstrip_by (sp : ascii -> bool) (s : string) : string :=
  match s with
  | EmptyString => EmptyString
  | String c r =>
      match rstrip_by sp r with
      | EmptyString => if sp c then EmptyString else String c EmptyString
      | r' => String c r'
      end
  end.

(** [s.strip()] *)
Definition strip (s : string) : string :=
  rstrip_by isspace (lstrip_by isspace s).

(** [k in s] for two strings: [k] occurs in [s] as a contiguous run. *)
Fixpoint contains (k s : string) : bool :=
  prefix k s ||
  match s with
  | EmptyString => false
  | String _ r => contains k r
  end.

(** The digits of a decimal literal, most significant first, with single
    underscores allowed between digits.  [seen] tells whether the
    character just read was a digit. *)
Fixpoint digits (acc : Z) (seen : bool) (s : string) : option Z :=
  match s with
  | EmptyString => if seen then Some acc else None
  | String c r =>
      if isdigit c then digits (10 * acc + (code c - 48)) true r
      else if Ascii.eqb c "_" then
             if seen then digits acc false r else None
           else None
  end.

(** [int(s)] in base ten: blanks around, an optional sign, digits.
    [None] stands for [ValueError].  (Interpreters that cap the length of
    a decimal literal refuse texts of more than 4300 digits; the
    embedding covers the texts below that cap.) *)
Definition parse_int (s : string) : option Z :=
  match rstrip_by c_isspace (lstrip_by c_isspace s) with
  | String "-" r => option_map Z.opp (digits 0 false r)
  | String "+" r => digits 0 false r
  | t => digits 0 false t
  end.

End PyStr.

(** ** Calendar dates *)

Module Calendar.

(** The date part of a [datetime]; the time of day plays no role. *)
Record date := mkdate { year : Z; month : Z; day : Z }.

Definition is_leap (y : Z) : bool :=
  (y mod 4 =? 0) && (negb (y mod 100 =? 0) || (y mod 400 =? 0)).

Definition days_in_month (y m : Z) : Z :=
  if m =? 2 then (if is_leap y then 29 else 28)
  else if (m =? 4) || (m =? 6) || (m =? 9) || (m =? 11) then 30
  else 31.

(** The dates a [datetime] can hold. *)
Definition valid (d : date) : Prop :=
  1 <= year d <= 9999 /\ 1 <= month d <= 12 /\
  1 <= day d <= days_in_month (year d) (month d).

(** [d.replace(day=n)]: the same year and month with day [n];
    [None] stands for [ValueError] ("day is out of range for month"). *)
Definition replace_day (d : date) (n : Z) : option date :=
  if (1 <=? n) && (n <=? days_in_month (year d) (month d))
  then Some (mkdate (year d) (month d) n)
  else None.

Definition digit (n : Z) : ascii := ascii_of_N (Z.to_N (48 + n mod 10)).

Definition pad2 (n : Z) : string :=
  String (digit (n / 10)) (String (digit n) EmptyString).

Definition pad4 (n : Z) : string :=
  String (digit (n / 1000)) (String (digit (n / 100)) (pad2 n)).

(** [d.strftime('%Y-%m-%d')], for the years of four digits that
    [datetime.today()] answers. *)
Definition strftime (d : date) : string :=
  (pad4 (year d) ++ "-" ++ pad2 (month d) ++ "-" ++ pad2 (day d))%string.

(** The calendar day after [d], as the spec's "calendar days" reads:
    it steps into the next month and the next year where needed. *)
Definition next_day (d : date) : date :=
  if day d <? days_in_month (year d) (month d)
  then mkdate (year d) (month d) (day d + 1)
  else if month d <? 12 then mkdate (year d) (month d + 1) 1
  else mkdate (year d + 1) 1 1.

(** [d] plus [n] calendar days. *)
Fixpoint add_days (n : nat) (d : date) : date :=
  match n with
  | O => d
  | S k => add_days k (next_day d)
  end.

End Calendar.

(** ** The records of the document *)

Module Book.
Record t := mk
  { book_id : Z; title : string; author : string; genre : string;
    copies : Z }.

Definition set_copies (c : Z) (b : t) : t :=
  mk (book_id b) (title b) (author b) (genre b) c.
End Book.

Module LibraryCard.
Record t := mk
  { card_no : Z; name : string; branch : string; subscription : Z;
    issue_date : string }.
End LibraryCard.

Module Borrower.
Record t := mk
  { borrower_id : Z; card_no : Z; name : string; address : string;
    phone : string; book_id : Z; book_title : string;
    issued_date : string; return_date : string }.
End Borrower.

(** [storage.data]: the three collections and the three counters. *)
Record Data := mkData
  { books : list Book.t;
    library_cards : list LibraryCard.t;
    borrowers : list Borrower.t;
    next_book_id : Z;
    next_card_no : Z;
    next_borrower_id : Z }.

Definition set_books (l : list Book.t) (d : Data) : Data :=
  mkData l (library_cards d) (borrowers d)
         (next_book_id d) (next_card_no d) (next_borrower_id d).

Definition set_library_cards (l : list LibraryCard.t) (d : Data) : Data :=
  mkData (books d) l (borrowers d)
         (next_book_id d) (next_card_no d) (next_borrower_id d).

Definition set_borrowers (l : list Borrower.t) (d : Data) : Data :=
  mkData (books d) (library_cards d) l
         (next_book_id d) (next_card_no d) (next_borrower_id d).

(** The keys [get_next_id] is called with. *)
Inductive counter := NextBookId | NextCardNo | NextBorrowerId.

Definition counter_get (k : counter) (d : Data) : Z :=
  match k with
  | NextBookId => next_book_id d
  | NextCardNo => next_card_no d
  | NextBorrowerId => next_borrower_id d
  end.

Definition counter_set (k : counter) (v : Z) (d : Data) : Data :=
  match k with
  | NextBookId =>
      mkData (books d) (library_cards d) (borrowers d)
             v (next_card_no d) (next_borrower_id d)
  | NextCardNo =>
      mkData (books d) (library_cards d) (borrowers d)
             (next_book_id d) v (next_borrower_id d)
  | NextBorrowerId =>
      mkData (books d) (library_cards d) (borrowers d)
             (next_book_id d) (next_card_no d) v
  end.

(** The default structure of [load_data]. *)
Definition default_data : Data := mkData [] [] [] 1 1 1.

(** ** JSON values and the backing file *)

(** What [json.load] can return.  (Numbers with a fraction or an exponent
    are left out: the program never writes one.) *)
Inductive json :=
| JNull
| JBool (b : bool)
| JInt (z : Z)
| JStr (s : string)
| JList (l : list json)
| JDict (kv : list (string * json)).

Module Json.

Fixpoint lookup (k : string) (kv : list (string * json)) : option json :=
  match kv with
  | [] => None
  | (k', v) :: r => if String.eqb k k' then Some v else lookup k r
  end.

Definition get_int (k : string) (kv : list (string * json)) : option Z :=
  match lookup k kv with Some (JInt z) => Some z | _ => None end.

Definition get_str (k : string) (kv : list (string * json)) : option string :=
  match lookup k kv with Some (JStr s) => Some s | _ => None end.

Definition get_list (k : string) (kv : list (string * json)) : option (list json) :=
  match lookup k kv with Some (JList l) => Some l | _ => None end.

Definition obind {A B} (o : option A) (f : A -> option B) : option B :=
  match o with Some a => f a | None => None end.

Fixpoint traverse {A B} (f : A -> option B) (l : list A) : option (list B) :=
  match l with
  | [] => Some []
  | a :: r => obind (f a) (fun b => obind (traverse f r) (fun bs => Some (b :: bs)))
  end.

(** The dicts the program builds, key by key in the order it writes them. *)
Definition of_book (b : Book.t) : json :=
  JDict [("book_id", JInt (Book.book_id b)); ("title", JStr (Book.title b));
         ("author", JStr (Book.author b)); ("genre", JStr (Book.genre b));
         ("copies", JInt (Book.copies b))].

Definition of_card (c : LibraryCard.t) : json :=
  JDict [("card_no", JInt (LibraryCard.card_no c));
         ("name", JStr (LibraryCard.name c));
         ("branch", JStr (LibraryCard.branch c));
         ("subscription", JInt (LibraryCard.subscription c));
         ("issue_date", JStr (LibraryCard.issue_date c))].

Definition of_borrower (r : Borrower.t) : json :=
  JDict [("borrower_id", JInt (Borrower.borrower_id r));
         ("card_no", JInt (Borrower.card_no r));
         ("name", JStr (Borrower.name r));
         ("address", JStr (Borrower.address r));
         ("phone", JStr (Borrower.phone r));
         ("book_id", JInt (Borrower.book_id r));
         ("book_title", JStr (Borrower.book_title r));
         ("issued_date", JStr (Borrower.issued_date r));
         ("return_date", JStr (Borrower.return_date r))].

Definition of_data (d : Data) : json :=
  JDict [("books", JList (map of_book (books d)));
         ("library_cards", JList (map of_card (library_cards d)));
         ("borrowers", JList (map of_borrower (borrowers d)));
         ("next_book_id", JInt (next_book_id d));
         ("next_card_no", JInt (next_card_no d));
         ("next_borrower_id", JInt (next_borrower_id d))].

(** The other direction: a JSON value read as the document the
    operations expect, every key they index present with its type. *)
Definition to_book (j : json) : option Book.t :=
  match j with
  | JDict kv =>
      obind (get_int "book_id" kv) (fun i =>
      obind (get_str "title" kv) (fun t =>
      obind (get_str "author" kv) (fun a =>
      obind (get_str "genre" kv) (fun g =>
      obind (get_int "copies" kv) (fun c =>
      Some (Book.mk i t a g c))))))
  | _ => None
  end.

Definition to_card (j : json) : option LibraryCard.t :=
  match j with
  | JDict kv =>
      obind (get_int "card_no" kv) (fun i =>
      obind (get_str "name" kv) (fun n =>
      obind (get_str "branch" kv) (fun b =>
      obind (get_int "subscription" kv) (fun s =>
      obind (get_str "issue_date" kv) (fun d =>
      Some (LibraryCard.mk i n b s d))))))
  | _ => None
  end.

Definition to_borrower (j : json) : option Borrower.t :=
  match j with
  | JDict kv =>
      obind (get_int "borrower_id" kv) (fun i =>
      obind (get_int "card_no" kv) (fun c =>
      obind (get_str "name" kv) (fun n =>
      obind (get_str "address" kv) (fun a =>
      obind (get_str "phone" kv) (fun p =>
      obind (get_int "book_id" kv) (fun b =>
      obind (get_str "book_title" kv) (fun t =>
      obind (get_str "issued_date" kv) (fun d1 =>
      obind (get_str "return_date" kv) (fun d2 =>
      Some (Borrower.mk i c n a p b t d1 d2))))))))))
  | _ => None
  end.

Definition to_data (j : json) : option Data :=
  match j with
  | JDict kv =>
      obind (obind (get_list "books" kv) (traverse to_book)) (fun bs =>
      obind (obind (get_list "library_cards" kv) (traverse to_card)) (fun cs =>
      obind (obind (get_list "borrowers" kv) (traverse to_borrower)) (fun rs =>
      obind (get_int "next_book_id" kv) (fun n1 =>
      obind (get_int "next_card_no" kv) (fun n2 =>
      obind (get_int "next_borrower_id" kv) (fun n3 =>
      Some (mkData bs cs rs n1 n2 n3)))))))
  | _ => None
  end.

End Json.

(** The dict literal at the end of [load_data]. *)
Definition default_document : json :=
  JDict [("books", JList []); ("library_cards", JList []);
         ("borrowers", JList []); ("next_book_id", JInt 1);
         ("next_card_no", JInt 1); ("next_borrower_id", JInt 1)].

(** ** Exceptions *)

Inductive exn :=
| ValueError
| JSONDecodeError        (* a subclass of ValueError *)
| UnicodeDecodeError     (* a subclass of ValueError *)
| FileNotFoundError      (* a subclass of OSError *)
| PermissionError        (* a subclass of OSError *)
| EOFError.

(** [isinstance(e, ValueError)] *)
Definition is_ValueError (e : exn) : bool :=
  match e with
  | ValueError | JSONDecodeError | UnicodeDecodeError => true
  | _ => false
  end.

Inductive result (A : Type) :=
| Ok (a : A)
| Raise (e : exn).
Arguments Ok {A} a.
Arguments Raise {A} e.

(** The condition of [data_file], as the code can observe it. *)
Inductive file_state :=
| Absent                    (* no such path *)
| Holds (v : json)          (* the text of the file is the JSON value [v] *)
| Unreadable (e : exn).     (* opening or decoding the file raises [e] *)

(** [os.path.exists(self.data_file)] *)
Definition path_exists (f : file_state) : bool :=
  match f with Absent => false | _ => true end.

(** [with open(self.data_file, 'r') as f: return json.load(f)] *)
Definition open_and_json_load (f : file_state) : result json :=
  match f with
  | Absent => Raise FileNotFoundError
  | Holds v => Ok v
  | Unreadable e => Raise e
  end.

(** [FileStorage.load_data] *)
Definition load_data (f : file_state) : result json :=
  let default := Ok default_document in
  if path_exists f then
    match open_and_json_load f with
    | Ok v => Ok v
    | Raise JSONDecodeError | Raise FileNotFoundError => default
    | Raise e => Raise e
    end
  else default.

(** ** The world and the monad of operations *)

Record World := mkWorld
  { storage : Data;               (* [storage.data] *)
    stdin : list string;          (* the lines [input()] has yet to read *)
    today : Calendar.date;        (* what [datetime.today()] answers *)
    disk : file_state;            (* the backing file *)
    writable : bool;              (* whether writing the file succeeds *)
    opens : bool }.               (* when it does not: whether the file could
                                     at least be opened for writing *)

Definition set_storage (d : Data) (w : World) : World :=
  mkWorld d (stdin w) (today w) (disk w) (writable w) (opens w).

Definition set_stdin (l : list string) (w : World) : World :=
  mkWorld (storage w) l (today w) (disk w) (writable w) (opens w).

Definition set_disk (f : file_state) (w : World) : World :=
  mkWorld (storage w) (stdin w) (today w) f (writable w) (opens w).

Definition M (A : Type) : Type := World -> result A * World.

Definition ret {A} (a : A) : M A := fun w => (Ok a, w).

Definition bind {A B} (m : M A) (k : A -> M B) : M B :=
  fun w =>
    match m w with
    | (Ok a, w') => k a w'
    | (Raise e, w') => (Raise e, w')
    end.

Definition raise {A} (e : exn) : M A := fun w => (Raise e, w).

(** [try: body  except ...: handler]; a handler re-raises what its
    [except] clauses do not name. *)
Definition try_except {A} (body : M A) (handler : exn -> M A) : M A :=
  fun w =>
    match body w with
    | (Ok a, w') => (Ok a, w')
    | (Raise e, w') => handler e w'
    end.

Definition gets {A} (f : Data -> A) : M A := fun w => (Ok (f (storage w)), w).

Definition modify (f : Data -> Data) : M unit :=
  fun w => (Ok tt, set_storage (f (storage w)) w).

Declare Scope py_scope.
Delimit Scope py_scope with py.
Notation "x <- m ;; k" := (bind m (fun x => k))
  (at level 61, m at next level, right associativity) : py_scope.
Notation "m ;; k" := (bind m (fun _ => k))
  (at level 61, right associativity) : py_scope.
Local Open Scope py_scope.

(** [input(...)]: the next line of standard input. *)
Definition input : M string :=
  fun w =>
    match stdin w with
    | [] => (Raise EOFError, w)
    | line :: rest => (Ok line, set_stdin rest w)
    end.

(** [int(s)] *)
Definition int (s : string) : M Z :=
  match PyStr.parse_int s with
  | Some z => ret z
  | None => raise ValueError
  end.

(** [datetime.today()] *)
Definition datetime_today : M Calendar.date := fun w => (Ok (today w), w).

(** [d.replace(day=n)] *)
Definition replace_day (d : Calendar.date) (n : Z) : M Calendar.date :=
  match Calendar.replace_day d n with
  | Some d' => ret d'
  | None => raise ValueError
  end.

(** ** FileStorage *)

(** [FileStorage.save_data]: the whole document over the file; a failed
    write is reported and answered with [False].  [open(data_file, 'w')]
    empties the file before anything is written, so a write that fails
    after the open leaves the file empty or with a beginning of the text,
    which [json.load] refuses; a write that fails at the open leaves the
    file as it was. *)
Definition save_data : M bool :=
  fun w =>
    if writable w
    then (Ok true, set_disk (Holds (Json.of_data (storage w))) w)
    else if opens w
         then (Ok false, set_disk (Unreadable JSONDecodeError) w)
         else (Ok false, w).

(** [FileStorage.get_next_id] *)
Definition get_next_id (key : counter) : M Z :=
  next_id <- gets (counter_get key) ;;
  modify (fun d => counter_set key (counter_get key d + 1) d) ;;
  ret next_id.

(** ** LibrarySystem *)

(** What an operation tells the user. *)
Inductive outcome :=
| BookAdded (book_id : Z)
| CardIssued (card_no : Z)
| BookIssued (borrower_id : Z) (title : string) (return_date : string)
| BookReturned (title : string)
| InvalidInput
| CardNotFound
| BookNotFound
| NoCopiesAvailable
| BorrowerNotFound
| Error (e : exn).

(** [LibrarySystem.add_book] *)
Definition add_book : M outcome :=
  try_except
    (title <- input ;; let title := PyStr.strip title in
     author <- input ;; let author := PyStr.strip author in
     genre <- input ;; let genre := PyStr.strip genre in
     line <- input ;;
     copies <- int line ;;
     book_id <- get_next_id NextBookId ;;
     let new_book := Book.mk book_id title author genre copies in
     modify (fun d => set_books (books d ++ [new_book]) d) ;;
     save_data ;;
     ret (BookAdded book_id))
    (fun e => if is_ValueError e then ret InvalidInput else ret (Error e)).

(** [LibrarySystem.find_book]: the first book with that id. *)
Definition find_book_in (book_id : Z) (l : list Book.t) : option Book.t :=
  find (fun book => Book.book_id book =? book_id) l.

Definition find_book (book_id : Z) : M (option Book.t) :=
  gets (fun d => find_book_in book_id (books d)).

(** The book [find_book] returns is the dict inside the list, so changing
    it changes the first book of that id in place. *)
Fixpoint update_found (book_id : Z) (f : Book.t -> Book.t) (l : list Book.t)
  : list Book.t :=
  match l with
  | [] => []
  | book :: rest =>
      if Book.book_id book =? book_id then f book :: rest
      else book :: update_found book_id f rest
  end.

(** [book["copies"] += change], then the clamp. *)
Definition change_copies (change : Z) (book : Book.t) : Book.t :=
  let book := Book.set_copies (Book.copies book + change) book in
  if Book.copies book <? 0 then Book.set_copies 0 book else book.

(** [LibrarySystem.update_book_copies] *)
Definition update_book_copies (book_id change : Z) : M bool :=
  book <- find_book book_id ;;
  match book with
  | Some _ =>
      modify (fun d =>
        set_books (update_found book_id (change_copies change) (books d)) d) ;;
      save_data ;;
      ret true
  | None => ret false
  end.

(** [LibrarySystem.issue_card] *)
Definition issue_card : M outcome :=
  try_except
    (name <- input ;; let name := PyStr.strip name in
     branch <- input ;; let branch := PyStr.strip branch in
     line <- input ;;
     subscription <- int line ;;
     card_no <- get_next_id NextCardNo ;;
     now <- datetime_today ;;
     let new_card :=
       LibraryCard.mk card_no name branch subscription (Calendar.strftime now) in
     modify (fun d => set_library_cards (library_cards d ++ [new_card]) d) ;;
     save_data ;;
     ret (CardIssued card_no))
    (fun e => if is_ValueError e then ret InvalidInput else raise e).

(** [LibrarySystem.find_card]: the first card with that number. *)
Definition find_card_in (card_no : Z) (l : list LibraryCard.t)
  : option LibraryCard.t :=
  find (fun card => LibraryCard.card_no card =? card_no) l.

Definition find_card (card_no : Z) : M (option LibraryCard.t) :=
  gets (fun d => find_card_in card_no (library_cards d)).

(** [LibrarySystem.issue_book] *)
Definition issue_book : M outcome :=
  try_except
    (line <- input ;;
     card_no <- int line ;;
     card <- find_card card_no ;;
     match card with
     | None => ret CardNotFound
     | Some _ =>
         name <- input ;; let name := PyStr.strip name in
         address <- input ;; let address := PyStr.strip address in
         phone <- input ;; let phone := PyStr.strip phone in
         line <- input ;;
         book_id <- int line ;;
         book <- find_book book_id ;;
         match book with
         | None => ret BookNotFound
         | Some book =>
             if Book.copies book <=? 0 then ret NoCopiesAvailable
             else
               borrower_id <- get_next_id NextBorrowerId ;;
               now <- datetime_today ;;
               let issued_date := Calendar.strftime now in
               return_date_obj <- replace_day now (Calendar.day now + 14) ;;
               let return_date := Calendar.strftime return_date_obj in
               let new_borrower :=
                 Borrower.mk borrower_id card_no name address phone book_id
                             (Book.title book) issued_date return_date in
               modify (fun d => set_borrowers (borrowers d ++ [new_borrower]) d) ;;
               update_book_copies book_id (-1) ;;
               save_data ;;
               ret (BookIssued borrower_id (Book.title book) return_date)
         end
     end)
    (fun e => if is_ValueError e then ret InvalidInput else raise e).

(** The search loop of [return_book]: the first record with that id. *)
Definition find_borrower_in (borrower_id : Z) (l : list Borrower.t)
  : option Borrower.t :=
  find (fun br => Borrower.borrower_id br =? borrower_id) l.

(** [LibrarySystem.return_book] *)
Definition return_book : M outcome :=
  try_except
    (line <- input ;;
     borrower_id <- int line ;;
     borrower <- gets (fun d => find_borrower_in borrower_id (borrowers d)) ;;
     match borrower with
     | None => ret BorrowerNotFound
     | Some borrower =>
         update_book_copies (Borrower.book_id borrower) 1 ;;
         modify (fun d =>
           set_borrowers
             (filter (fun br => negb (Borrower.borrower_id br =? borrower_id))
                     (borrowers d)) d) ;;
         save_data ;;
         ret (BookReturned (Borrower.book_title borrower))
     end)
    (fun e => if is_ValueError e then ret InvalidInput else raise e).

(** The test of the search loop: the keyword occurs in the lowered title,
    author or genre. *)
Definition book_matches (keyword : string) (book : Book.t) : bool :=
  PyStr.contains keyword (PyStr.lower (Book.title book)) ||
  PyStr.contains keyword (PyStr.lower (Book.author book)) ||
  PyStr.contains keyword (PyStr.lower (Book.genre book)).

(** [LibrarySystem.search_books]; the answer is the list [results], which
    the method prints book by book ("no books found" when it is empty). *)
Definition search_books : M (list Book.t) :=
  line <- input ;;
  let keyword := PyStr.lower (PyStr.strip line) in
  gets (fun d => filter (book_matches keyword) (books d)).

(** ** Sessions: operations one after the other *)

(** The operations a session can ask for, and what each answers. *)
Inductive op :=
| AddBook
| IssueCard
| IssueBook
| ReturnBook
| SearchBooks
| UpdateCopies (book_id change : Z).

Inductive report :=
| Said (o : outcome)
| Listed (results : list Book.t)
| Updated (found : bool).

Definition run_op (o : op) : M report :=
  match o with
  | AddBook => x <- add_book ;; ret (Said x)
  | IssueCard => x <- issue_card ;; ret (Said x)
  | IssueBook => x <- issue_book ;; ret (Said x)
  | ReturnBook => x <- return_book ;; ret (Said x)
  | SearchBooks => l <- search_books ;; ret (Listed l)
  | UpdateCopies book_id change =>
      b <- update_book_copies book_id change ;; ret (Updated b)
  end.

(** [session allowed d rs d']: from the document [d], some operations run
    one after the other, each in a world the predicate [allowed] admits,
    answer [rs] and leave the document [d'].  Between two operations only
    the document is carried over: the pending input, the date and the
    file system are whatever they are when the next operation starts.  An
    exception that leaves an operation ends it and the session goes on, as
    in the menu loop of [main]. *)
Inductive session (allowed : op -> World -> Prop)
  : Data -> list (result report) -> Data -> Prop :=
| session_end d : session allowed d [] d
| session_op o w r w' rs d' :
    allowed o w ->
    run_op o w = (r, w') ->
    session allowed (storage w') rs d' ->
    session allowed (storage w) (r :: rs) d'.

Definition any_world (o : op) (w : World) : Prop := True.

(** The documents a session can reach from the default structure. *)
Definition reachable (d : Data) : Prop :=
  exists rs, session any_world default_data rs d.

(** The book ids a session's answers announce, in order. *)
Fixpoint added_ids (rs : list (result report)) : list Z :=
  match rs with
  | [] => []
  | Ok (Said (BookAdded i)) :: r => i :: added_ids r
  | _ :: r => added_ids r
  end.

(** [n] calls of [get_next_id key] in a row, and what they return. *)
Fixpoint get_next_ids (key : counter) (n : nat) : M (list Z) :=
  match n with
  | O => ret []
  | S k => i <- get_next_id key ;; r <- get_next_ids key k ;; ret (i :: r)
  end.

(** ** Predicates of the statements *)

(** No book has a negative number of copies. *)
Definition copies_nonneg (d : Data) : Prop :=
  Forall (fun book => 0 <= Book.copies book) (books d).

(** An [add_book] whose fourth line reads as a negative number. *)
Definition adds_negative (w : World) : Prop :=
  exists t a g c rest n,
    stdin w = t :: a :: g :: c :: rest /\ PyStr.parse_int c = Some n /\ n < 0.

(** Worlds in which [add_book] is not handed a negative number. *)
Definition no_negative_add (o : op) (w : World) : Prop :=
  o = AddBook -> ~ adds_negative w.

(** No borrower record carries the id the counter hands out next. *)
Definition borrower_counter_unused (d : Data) : Prop :=
  Forall (fun br => Borrower.borrower_id br <> next_borrower_id d) (borrowers d).

(** Every borrower id is below the counter. *)
Definition borrower_ids_below_counter (d : Data) : Prop :=
  Forall (fun br => Borrower.borrower_id br < next_borrower_id d) (borrowers d).

(** [k] occurs in [s]: [s] is some text, then [k], then some text. *)
Definition occurs_in (k s : string) : Prop :=
  exists pre post, s = (pre ++ k ++ post)%string.

(** Substring test that ignores case: both sides lowered first. *)
Definition occurs_in_ci (k s : string) : Prop :=
  occurs_in (PyStr.lower k) (PyStr.lower s).

(** A book the spec's search selects for the keyword [k]. *)
Definition selected (k : string) (book : Book.t) : Prop :=
  occurs_in_ci k (Book.title book) \/
  occurs_in_ci k (Book.author book) \/
  occurs_in_ci k (Book.genre book).



(** ** The read-only operations and the menu *)

(** [LibrarySystem.list_books]: the books it prints a row for, in the
    order of the rows; the empty list stands for "no books found".  (How a
    row is laid out is left out, here and in the two operations below.) *)
Definition list_books : M (list Book.t) := gets books.

(** [LibrarySystem.list_borrowers]: the records it prints a row for. *)
Definition list_borrowers : M (list Borrower.t) := gets borrowers.

(** The five numbers of [show_statistics]. *)
Record statistics := mkStatistics
  { total_books : Z;
    total_copies : Z;
    available_books : Z;
    active_borrowers : Z;
    total_members : Z }.

(** [sum(book["copies"] for book in books)] *)
Definition sum_copies (l : list Book.t) : Z :=
  fold_left (fun acc book => acc + Book.copies book) l 0.

Definition statistics_of (d : Data) : statistics :=
  mkStatistics
    (Z.of_nat (List.length (books d)))
    (sum_copies (books d))
    (Z.of_nat (List.length (filter (fun book => 0 <? Book.copies book) (books d))))
    (Z.of_nat (List.length (borrowers d)))
    (Z.of_nat (List.length (library_cards d))).

(** [LibrarySystem.show_statistics] *)
Definition show_statistics : M statistics := gets statistics_of.

(** What one turn of the menu of [main] prints. *)
Inductive turn :=
| Did (r : report)
| Books (l : list Book.t)
| Borrowers (l : list Borrower.t)
| Statistics (s : statistics)
| InvalidChoice
| Caught (e : exn).

(** The body of the [while True] of [main]: [None] is the [break] of
    choice 9.  The handler is [except Exception]; no interrupt from the
    keyboard arrives. *)
Definition menu_turn : M (option turn) :=
  try_except
    (line <- input ;;
     let choice := PyStr.strip line in
     if String.eqb choice "1" then x <- add_book ;; ret (Some (Did (Said x)))
     else if String.eqb choice "2" then l <- list_books ;; ret (Some (Books l))
     else if String.eqb choice "3" then l <- search_books ;; ret (Some (Did (Listed l)))
     else if String.eqb choice "4" then x <- issue_card ;; ret (Some (Did (Said x)))
     else if String.eqb choice "5" then x <- issue_book ;; ret (Some (Did (Said x)))
     else if String.eqb choice "6" then x <- return_book ;; ret (Some (Did (Said x)))
     else if String.eqb choice "7" then l <- list_borrowers ;; ret (Some (Borrowers l))
     else if String.eqb choice "8" then s <- show_statistics ;; ret (Some (Statistics s))
     else if String.eqb choice "9" then ret None
     else ret (Some InvalidChoice))
    (fun e => ret (Some (Caught e))).

(** The loop of [main], entered with the document loaded, for at most
    [fuel] turns: [None] when the turns run out before the loop is left,
    otherwise what the turns printed and the world at the [break], or the
    exception that left the loop.  The date and the condition of the disk
    are those of the world for the whole run. *)
Fixpoint main_loop (fuel : nat) (w : World) : option (result (list turn) * World) :=
  match fuel with
  | O => None
  | S fuel' =>
      match menu_turn w with
      | (Ok None, w') => Some (Ok [], w')
      | (Ok (Some t), w') =>
          match main_loop fuel' w' with
          | Some (Ok ts, w'') => Some (Ok (t :: ts), w'')
          | other => other
          end
      | (Raise e, w') => Some (Raise e, w')
      end
  end.

(** ** The moves of the document *)

(** The ways an operation can move the document: not at all; a book
    appended under the next book id; a card appended under the next card
    number; the borrower counter advanced and nothing else; a loan
    recorded; a loan returned; the copies of one book changed. *)
Inductive store_step (d : Data) : Data -> Prop :=
| step_none : store_step d d
| step_add_book title author genre copies :
    store_step d
      (mkData (books d ++ [Book.mk (next_book_id d) title author genre copies])
              (library_cards d) (borrowers d)
              (next_book_id d + 1) (next_card_no d) (next_borrower_id d))
| step_issue_card name branch subscription date :
    store_step d
      (mkData (books d)
              (library_cards d ++
                 [LibraryCard.mk (next_card_no d) name branch subscription date])
              (borrowers d)
              (next_book_id d) (next_card_no d + 1) (next_borrower_id d))
| step_lost_id :
    store_step d (counter_set NextBorrowerId (next_borrower_id d + 1) d)
| step_issue_book card book card_no book_id name address phone issued due :
    find_card_in card_no (library_cards d) = Some card ->
    find_book_in book_id (books d) = Some book ->
    0 < Book.copies book ->
    store_step d
      (mkData (update_found book_id (change_copies (-1)) (books d))
              (library_cards d)
              (borrowers d ++
                 [Borrower.mk (next_borrower_id d) card_no name address phone
                              book_id (Book.title book) issued due])
              (next_book_id d) (next_card_no d) (next_borrower_id d + 1))
| step_return_book id br :
    find_borrower_in id (borrowers d) = Some br ->
    store_step d
      (mkData (update_found (Borrower.book_id br) (change_copies 1) (books d))
              (library_cards d)
              (filter (fun x => negb (Borrower.borrower_id x =? id)) (borrowers d))
              (next_book_id d) (next_card_no d) (next_borrower_id d))
| step_update_copies id change :
    store_step d
      (set_books (update_found id (change_copies change) (books d)) d).

(** Every identifier is below its counter and occurs once in its
    collection. *)
Definition ids_in_order (d : Data) : Prop :=
  (Forall (fun book => Book.book_id book < next_book_id d) (books d) /\
   NoDup (map Book.book_id (books d))) /\
  (Forall (fun card => LibraryCard.card_no card < next_card_no d) (library_cards d) /\
   NoDup (map LibraryCard.card_no (library_cards d))) /\
  (Forall (fun br => Borrower.borrower_id br < next_borrower_id d) (borrowers d) /\
   NoDup (map Borrower.borrower_id (borrowers d))).

(** A borrower record whose card and book are in the document, the book
    under the title the record carries. *)
Definition loan_linked (d : Data) (br : Borrower.t) : Prop :=
  (exists card, find_card_in (Borrower.card_no br) (library_cards d) = Some card) /\
  (exists book, find_book_in (Borrower.book_id br) (books d) = Some book /\
                Book.title book = Borrower.book_title br).

Definition loans_linked (d : Data) : Prop := Forall (loan_linked d) (borrowers d).

(** The answers that announce a change of the document. *)
Definition announces_change (r : report) : bool :=
  match r with
  | Said (BookAdded _) | Said (CardIssued _) | Said (BookIssued _ _ _)
  | Said (BookReturned _) | Updated true => true
  | _ => false
  end.

(** ** Example data

    The library of the spec's scenario: one book with two copies and one
    card; a second book with no copy left; a loan of that second book. *)

Definition dune : Book.t := Book.mk 1 "Dune" "Herbert" "SciFi" 2.
Definition sold_out : Book.t := Book.mk 2 "Emma" "Austen" "Novel" 0.
Definition alice : LibraryCard.t := LibraryCard.mk 1 "Alice" "Main" 6 "2024-01-10".
Definition emma_loan : Borrower.t :=
  Borrower.mk 1 1 "Alice" "Oak St" "555" 2 "Emma" "2024-01-02" "2024-01-16".
Definition small_library : Data := mkData [dune] [alice] [] 2 2 1.

(** The scenario after the loan of the one book to the one card. *)
Definition dune_loan : Borrower.t :=
  Borrower.mk 1 1 "Alice" "Oak St" "555" 1 "Dune" "2024-01-10" "2024-01-24".
Definition loaned_library : Data :=
  mkData [Book.set_copies 1 dune] [alice] [dune_loan] 2 2 2.

(** A world with the given document, pending input and date; no backing
    file yet, and a disk that can be written. *)
Definition world_of (d : Data) (lines : list string) (now : Calendar.date) : World :=
  mkWorld d lines now Absent true true.

(** * Properties *)

(** ** Sanity checks of the string and date primitives *)

Example parse_int_examples :
  PyStr.parse_int " 42 " = Some 42 /\ PyStr.parse_int "-5" = Some (-5) /\
  PyStr.parse_int "+7" = Some 7 /\ PyStr.parse_int "1_000" = Some 1000 /\
  PyStr.parse_int "abc" = None /\ PyStr.parse_int "" = None /\
  PyStr.parse_int "- 5" = None /\ PyStr.parse_int "1__0" = None /\
  PyStr.parse_int "2.5" = None.
Proof. repeat split. Qed.

Example strip_lower_examples :
  PyStr.strip "  The Dune  " = "The Dune" /\
  PyStr.lower "The DUNE 2" = "the dune 2" /\
  PyStr.contains "dune" "the dune 2" = true /\
  PyStr.contains "" "" = true /\
  PyStr.contains "x" "the dune" = false.
Proof. repeat split. Qed.

Example strftime_example :
  Calendar.strftime (Calendar.mkdate 2024 2 3) = "2024-02-03".
Proof. reflexivity. Qed.

Example add_days_examples :
  Calendar.add_days 14 (Calendar.mkdate 2024 1 20) = Calendar.mkdate 2024 2 3 /\
  Calendar.add_days 14 (Calendar.mkdate 2023 12 25) = Calendar.mkdate 2024 1 8 /\
  Calendar.add_days 14 (Calendar.mkdate 2024 2 20) = Calendar.mkdate 2024 3 5 /\
  Calendar.add_days 14 (Calendar.mkdate 2023 2 20) = Calendar.mkdate 2023 3 6.
Proof. repeat split. Qed.

(** ** The monad *)

Lemma bind_ok {A B} (m : M A) (k : A -> M B) w a w' :
  m w = (Ok a, w') -> bind m k w = k a w'.
Proof. intros H. unfold bind. now rewrite H. Qed.

Lemma bind_raise {A B} (m : M A) (k : A -> M B) w e w' :
  m w = (Raise e, w') -> bind m k w = (Raise e, w').
Proof. intros H. unfold bind. now rewrite H. Qed.

Lemma input_line w line rest :
  stdin w = line :: rest -> input w = (Ok line, set_stdin rest w).
Proof. intros H. unfold input. now rewrite H. Qed.

Lemma int_ok s z w :
  PyStr.parse_int s = Some z -> int s w = (Ok z, w).
Proof. intros H. unfold int. now rewrite H. Qed.

Lemma int_fails s w :
  PyStr.parse_int s = None -> int s w = (Raise ValueError, w).
Proof. intros H. unfold int. now rewrite H. Qed.

(** [save_data] never touches the document and never raises. *)
Lemma save_data_storage w :
  exists b w', save_data w = (Ok b, w') /\ storage w' = storage w /\
               stdin w' = stdin w /\ today w' = today w.
Proof.
  unfold save_data. destruct (writable w), (opens w); eauto 6.
Qed.

(** ** Books found and changed in place *)

Lemma change_copies_book_id change book :
  Book.book_id (change_copies change book) = Book.book_id book.
Proof.
  unfold change_copies. cbn. now destruct (_ <? _).
Qed.

Lemma change_copies_max change book :
  change_copies change book =
  Book.set_copies (Z.max 0 (Book.copies book + change)) book.
Proof.
  unfold change_copies, Book.set_copies. cbn.
  destruct (Z.ltb_spec (Book.copies book + change) 0); cbn.
  - now rewrite Z.max_l by lia.
  - now rewrite Z.max_r by lia.
Qed.

Lemma change_copies_back book :
  0 < Book.copies book ->
  change_copies 1 (change_copies (-1) book) = book.
Proof.
  intros H. rewrite !change_copies_max. destruct book as [i t a g c].
  unfold Book.set_copies. cbn in *. f_equal. lia.
Qed.

Lemma find_book_in_id book_id l book :
  find_book_in book_id l = Some book -> Book.book_id book = book_id.
Proof.
  intros H. apply find_some in H. destruct H as [_ H]. lia.
Qed.

Lemma find_book_in_In book_id l book :
  find_book_in book_id l = Some book -> In book l.
Proof. intros H. now apply find_some in H. Qed.

Lemma update_found_absent book_id f l :
  find_book_in book_id l = None -> update_found book_id f l = l.
Proof.
  induction l as [|b r IH]; cbn; [easy|].
  destruct (Book.book_id b =? book_id); [discriminate|].
  intros H. now rewrite IH.
Qed.

Lemma find_update_found book_id f l book :
  (forall b, Book.book_id (f b) = Book.book_id b) ->
  find_book_in book_id l = Some book ->
  find_book_in book_id (update_found book_id f l) = Some (f book).
Proof.
  intros Hf. induction l as [|b r IH]; cbn; [discriminate|].
  destruct (Book.book_id b =? book_id) eqn:E; cbn.
  - intros [= ->]. now rewrite Hf, E.
  - now rewrite E.
Qed.

Lemma find_update_found_other book_id other f l :
  (forall b, Book.book_id (f b) = Book.book_id b) ->
  other <> book_id ->
  find_book_in other (update_found book_id f l) = find_book_in other l.
Proof.
  intros Hf Hne. unfold find_book_in.
  induction l as [|b r IH]; cbn; [easy|].
  destruct (Z.eqb_spec (Book.book_id b) book_id) as [E|E]; cbn.
  - rewrite Hf.
    destruct (Z.eqb_spec (Book.book_id b) other); [lia | reflexivity].
  - now rewrite IH.
Qed.

Lemma update_found_twice book_id f g l :
  (forall b, Book.book_id (f b) = Book.book_id b) ->
  update_found book_id g (update_found book_id f l) =
  update_found book_id (fun b => g (f b)) l.
Proof.
  intros Hf. induction l as [|b r IH]; cbn; [easy|].
  destruct (Book.book_id b =? book_id) eqn:E; cbn.
  - now rewrite Hf, E.
  - now rewrite E, IH.
Qed.

Lemma update_found_same book_id f l book :
  find_book_in book_id l = Some book -> f book = book ->
  update_found book_id f l = l.
Proof.
  induction l as [|b r IH]; cbn; [easy|].
  destruct (Book.book_id b =? book_id).
  - intros [= ->] ->. reflexivity.
  - intros H1 H2. now rewrite IH.
Qed.

Lemma update_found_Forall (P : Book.t -> Prop) book_id f l :
  (forall b, P b -> P (f b)) ->
  Forall P l -> Forall P (update_found book_id f l).
Proof.
  intros Hf. induction 1 as [|b r Hb Hr IH]; cbn; [constructor|].
  destruct (Book.book_id b =? book_id); constructor; auto.
Qed.

Lemma update_found_clamped book_id change l :
  Forall (fun book => 0 <= Book.copies book) l ->
  Forall (fun book => 0 <= Book.copies book)
         (update_found book_id (change_copies change) l).
Proof.
  apply update_found_Forall. intros b _.
  rewrite change_copies_max. cbn. lia.
Qed.

(** What [update_book_copies] does, by cases on the search. *)
Lemma update_book_copies_found book_id change w book :
  find_book_in book_id (books (storage w)) = Some book ->
  exists w',
    update_book_copies book_id change w = (Ok true, w') /\
    storage w' =
      set_books (update_found book_id (change_copies change)
                              (books (storage w))) (storage w) /\
    stdin w' = stdin w /\ today w' = today w.
Proof.
  intros H. unfold update_book_copies, find_book, gets, modify, bind, ret.
  rewrite H. unfold save_data. cbn.
  destruct (writable w), (opens w); cbn; eauto.
Qed.

Lemma update_book_copies_absent book_id change w :
  find_book_in book_id (books (storage w)) = None ->
  update_book_copies book_id change w = (Ok false, w).
Proof.
  intros H. unfold update_book_copies, find_book, gets, bind, ret.
  now rewrite H.
Qed.

(** [update_book_copies] on the document, whatever the search finds. *)
Lemma update_book_copies_storage book_id change w :
  exists b w',
    update_book_copies book_id change w = (Ok b, w') /\
    storage w' =
      set_books (update_found book_id (change_copies change)
                              (books (storage w))) (storage w) /\
    stdin w' = stdin w /\ today w' = today w.
Proof.
  destruct (find_book_in book_id (books (storage w))) as [book|] eqn:E.
  - destruct (update_book_copies_found book_id change w book E)
      as (w' & H1 & H2); eauto.
  - exists false, w. rewrite update_book_copies_absent by assumption.
    rewrite update_found_absent by assumption.
    repeat split. now destruct (storage w).
Qed.

(** ** Running an operation: case analysis on its path *)

Ltac world_simpl_in H :=
  cbn [stdin storage today disk writable opens set_stdin set_storage set_disk
       is_ValueError fst snd] in H.

Ltac world_simpl :=
  cbn [stdin storage today disk writable opens set_stdin set_storage set_disk
       books library_cards borrowers next_book_id next_card_no
       next_borrower_id set_books set_library_cards set_borrowers
       counter_get counter_set is_ValueError fst snd].

(** Split on the innermost test the computation in [H] is stuck on. *)
Ltac break_in H :=
  match type of H with
  | context [match ?x with _ => _ end] =>
      lazymatch x with
      | context [match _ with _ => _ end] => fail
      | _ => destruct x eqn:?; cbv beta iota in H; world_simpl_in H
      end
  end.

(** Follow every path of the operation whose run is [H]. *)
Ltac run_in H :=
  unfold get_next_id, find_card, find_book, input, int, datetime_today,
    replace_day, save_data in H;
  unfold try_except, bind, gets, modify, ret, raise in H;
  cbv beta iota in H; world_simpl_in H;
  repeat (break_in H; try discriminate).

(** Replace a run of [update_book_copies] among the hypotheses by its
    effect on the document. *)
Ltac settle_update :=
  match goal with
  | Hu : update_book_copies ?i ?c ?W = (_, _) |- _ =>
      let b := fresh "b" in
      let wu := fresh "wu" in
      let Eu := fresh "Eu" in
      let Es := fresh "Es" in
      let Ei := fresh "Ei" in
      let Et := fresh "Et" in
      destruct (update_book_copies_storage i c W)
        as (b & wu & Eu & Es & Ei & Et);
      rewrite Eu in Hu;
      first [discriminate Hu | injection Hu as -> ->]
  end.

Lemma add_book_effect w r w' :
  add_book w = (r, w') ->
  (storage w' = storage w /\ forall i, r <> Ok (BookAdded i)) \/
  (exists t a g c rest n,
      stdin w = t :: a :: g :: c :: rest /\ PyStr.parse_int c = Some n /\
      r = Ok (BookAdded (next_book_id (storage w))) /\
      stdin w' = rest /\
      storage w' =
        mkData (books (storage w) ++
                  [Book.mk (next_book_id (storage w)) (PyStr.strip t)
                           (PyStr.strip a) (PyStr.strip g) n])
               (library_cards (storage w)) (borrowers (storage w))
               (next_book_id (storage w) + 1) (next_card_no (storage w))
               (next_borrower_id (storage w))).
Proof.
  intros H. unfold add_book in H. run_in H.
  all: injection H as <- <-.
  all: try (left; split; [reflexivity | discriminate]).
  all: right; repeat eexists; eauto.
Qed.

Lemma issue_card_effect w r w' :
  issue_card w = (r, w') ->
  books (storage w') = books (storage w) /\
  borrowers (storage w') = borrowers (storage w) /\
  next_book_id (storage w') = next_book_id (storage w) /\
  next_borrower_id (storage w') = next_borrower_id (storage w) /\
  forall i, r <> Ok (BookAdded i).
Proof.
  intros H. unfold issue_card in H. run_in H.
  all: injection H as <- <-.
  all: repeat split; try reflexivity; discriminate.
Qed.

(** The three ways [issue_book] can leave the document: untouched (a
    refusal, or an exception before the counter is read), with only the
    borrower counter advanced (the exception of [replace]), or with the
    loan recorded. *)
Lemma issue_book_effect w r w' :
  issue_book w = (r, w') ->
  (storage w' = storage w /\ disk w' = disk w /\
   forall i t d, r <> Ok (BookIssued i t d)) \/
  (storage w' =
     counter_set NextBorrowerId (next_borrower_id (storage w) + 1) (storage w) /\
   r = Ok InvalidInput) \/
  (exists l1 name addr phone l2 rest card_no card book_id book due,
      stdin w = l1 :: name :: addr :: phone :: l2 :: rest /\
      PyStr.parse_int l1 = Some card_no /\
      find_card_in card_no (library_cards (storage w)) = Some card /\
      PyStr.parse_int l2 = Some book_id /\
      find_book_in book_id (books (storage w)) = Some book /\
      0 < Book.copies book /\
      Calendar.replace_day (today w) (Calendar.day (today w) + 14) = Some due /\
      r = Ok (BookIssued (next_borrower_id (storage w)) (Book.title book)
                         (Calendar.strftime due)) /\
      stdin w' = rest /\ today w' = today w /\
      storage w' =
        mkData (update_found book_id (change_copies (-1)) (books (storage w)))
               (library_cards (storage w))
               (borrowers (storage w) ++
                  [Borrower.mk (next_borrower_id (storage w)) card_no
                     (PyStr.strip name) (PyStr.strip addr) (PyStr.strip phone)
                     book_id (Book.title book)
                     (Calendar.strftime (today w)) (Calendar.strftime due)])
               (next_book_id (storage w)) (next_card_no (storage w))
               (next_borrower_id (storage w) + 1)).
Proof.
  intros H. unfold issue_book in H. run_in H.
  all: try settle_update.
  all: injection H as <- <-.
  all: try (left; repeat split; [reflexivity .. | discriminate]).
  all: try (right; left; split; reflexivity).
  all: right; right.
  all: repeat match goal with E : _ = _ :: _ |- _ => try subst end.
  all: match goal with
       | E : (_ <=? _) = false |- _ => apply Z.leb_gt in E
       end.
  all: do 11 eexists; repeat split; eauto; world_simpl; rewrite ?Es, ?Ei, ?Et;
    reflexivity.
Qed.

Lemma return_book_effect w r w' :
  return_book w = (r, w') ->
  (storage w' = storage w /\ forall t, r <> Ok (BookReturned t)) \/
  (exists line rest id br,
      stdin w = line :: rest /\ PyStr.parse_int line = Some id /\
      find_borrower_in id (borrowers (storage w)) = Some br /\
      r = Ok (BookReturned (Borrower.book_title br)) /\
      stdin w' = rest /\
      storage w' =
        mkData (update_found (Borrower.book_id br) (change_copies 1)
                             (books (storage w)))
               (library_cards (storage w))
               (filter (fun x => negb (Borrower.borrower_id x =? id))
                       (borrowers (storage w)))
               (next_book_id (storage w)) (next_card_no (storage w))
               (next_borrower_id (storage w))).
Proof.
  intros H. unfold return_book in H. run_in H.
  all: try settle_update.
  all: injection H as <- <-.
  all: try (left; split; [reflexivity | discriminate]).
  all: right; do 4 eexists; repeat split; eauto; world_simpl;
    rewrite ?Es, ?Ei; reflexivity.
Qed.

Lemma search_books_effect w r w' :
  search_books w = (r, w') -> storage w' = storage w.
Proof.
  intros H. unfold search_books in H. run_in H.
  all: now injection H as <- <-.
Qed.

(** Follow the one path the hypotheses select: unfold the operation and
    feed it the facts about the input and the searches. *)
Ltac run_with :=
  unfold get_next_id, find_card, find_book, input, int, datetime_today,
    replace_day, save_data;
  unfold try_except, bind, gets, modify, ret, raise;
  repeat (world_simpl; cbv beta iota;
          match goal with
          | H : stdin ?w = _ |- context [stdin ?w] => rewrite H
          | H : PyStr.parse_int ?s = _ |- context [PyStr.parse_int ?s] =>
              rewrite H
          | H : find_card_in ?c ?l = _ |- context [find_card_in ?c ?l] =>
              rewrite H
          | H : find_book_in ?c ?l = _ |- context [find_book_in ?c ?l] =>
              rewrite H
          | H : find_borrower_in ?c ?l = _
            |- context [find_borrower_in ?c ?l] => rewrite H
          | H : Calendar.replace_day ?d ?n = _
            |- context [Calendar.replace_day ?d ?n] => rewrite H
          | H : (?a <=? ?b) = _ |- context [?a <=? ?b] => rewrite H
          end);
  world_simpl; cbv beta iota.

Lemma add_book_invalid w t a g c rest :
  stdin w = t :: a :: g :: c :: rest ->
  PyStr.parse_int c = None ->
  add_book w = (Ok InvalidInput, set_stdin rest w).
Proof.
  intros Hin Hc. unfold add_book. run_with. reflexivity.
Qed.

Lemma add_book_added w t a g c rest n :
  stdin w = t :: a :: g :: c :: rest ->
  PyStr.parse_int c = Some n ->
  exists w',
    add_book w = (Ok (BookAdded (next_book_id (storage w))), w') /\
    stdin w' = rest /\
    storage w' =
      mkData (books (storage w) ++
                [Book.mk (next_book_id (storage w)) (PyStr.strip t)
                         (PyStr.strip a) (PyStr.strip g) n])
             (library_cards (storage w)) (borrowers (storage w))
             (next_book_id (storage w) + 1) (next_card_no (storage w))
             (next_borrower_id (storage w)).
Proof.
  intros Hin Hc. unfold add_book. run_with.
  destruct (writable w), (opens w); eexists; repeat split.
Qed.

Lemma issue_book_card_not_found w line rest card_no :
  stdin w = line :: rest ->
  PyStr.parse_int line = Some card_no ->
  find_card_in card_no (library_cards (storage w)) = None ->
  issue_book w = (Ok CardNotFound, set_stdin rest w).
Proof.
  intros Hin Hc Hf. unfold issue_book. run_with. reflexivity.
Qed.

Lemma issue_book_book_not_found w l1 name addr phone l2 rest card_no card book_id :
  stdin w = l1 :: name :: addr :: phone :: l2 :: rest ->
  PyStr.parse_int l1 = Some card_no ->
  find_card_in card_no (library_cards (storage w)) = Some card ->
  PyStr.parse_int l2 = Some book_id ->
  find_book_in book_id (books (storage w)) = None ->
  issue_book w = (Ok BookNotFound, set_stdin rest w).
Proof.
  intros Hin Hc Hf Hb Hfb. unfold issue_book. run_with. reflexivity.
Qed.

Lemma issue_book_no_copies w l1 name addr phone l2 rest card_no card book_id book :
  stdin w = l1 :: name :: addr :: phone :: l2 :: rest ->
  PyStr.parse_int l1 = Some card_no ->
  find_card_in card_no (library_cards (storage w)) = Some card ->
  PyStr.parse_int l2 = Some book_id ->
  find_book_in book_id (books (storage w)) = Some book ->
  Book.copies book <= 0 ->
  issue_book w = (Ok NoCopiesAvailable, set_stdin rest w).
Proof.
  intros Hin Hc Hf Hb Hfb Hle. apply Z.leb_le in Hle.
  unfold issue_book. run_with. reflexivity.
Qed.

(** The path on which [replace] raises: the counter is already advanced
    and stays so, nothing else changes, and the handler of [ValueError]
    answers "invalid input". *)
Lemma issue_book_replace_fails w l1 name addr phone l2 rest card_no card book_id book :
  stdin w = l1 :: name :: addr :: phone :: l2 :: rest ->
  PyStr.parse_int l1 = Some card_no ->
  find_card_in card_no (library_cards (storage w)) = Some card ->
  PyStr.parse_int l2 = Some book_id ->
  find_book_in book_id (books (storage w)) = Some book ->
  0 < Book.copies book ->
  Calendar.days_in_month (Calendar.year (today w)) (Calendar.month (today w))
    < Calendar.day (today w) + 14 ->
  issue_book w =
    (Ok InvalidInput,
     set_storage
       (counter_set NextBorrowerId (next_borrower_id (storage w) + 1) (storage w))
       (set_stdin rest w)).
Proof.
  intros Hin Hc Hf Hb Hfb Hpos Hlate.
  assert (Hle : (Book.copies book <=? 0) = false) by now apply Z.leb_gt.
  assert (Hr : Calendar.replace_day (today w) (Calendar.day (today w) + 14) = None).
  { unfold Calendar.replace_day.
    destruct (Z.leb_spec (Calendar.day (today w) + 14)
                (Calendar.days_in_month (Calendar.year (today w))
                                        (Calendar.month (today w)))); [lia|].
    now rewrite andb_false_r. }
  unfold issue_book. run_with. reflexivity.
Qed.

Lemma return_book_found w line rest id br :
  stdin w = line :: rest ->
  PyStr.parse_int line = Some id ->
  find_borrower_in id (borrowers (storage w)) = Some br ->
  exists w',
    return_book w = (Ok (BookReturned (Borrower.book_title br)), w') /\
    stdin w' = rest /\
    storage w' =
      mkData (update_found (Borrower.book_id br) (change_copies 1)
                           (books (storage w)))
             (library_cards (storage w))
             (filter (fun x => negb (Borrower.borrower_id x =? id))
                     (borrowers (storage w)))
             (next_book_id (storage w)) (next_card_no (storage w))
             (next_borrower_id (storage w)).
Proof.
  intros Hin Hc Hf. unfold return_book. run_with.
  destruct (update_book_copies_storage (Borrower.book_id br) 1 (set_stdin rest w))
    as (b & wu & Eu & Es & Ei & Et).
  rewrite Eu. world_simpl. cbv beta iota.
  destruct (writable wu), (opens wu); eexists; repeat split; world_simpl;
    rewrite ?Es, ?Ei; reflexivity.
Qed.

(** ** update_book_copies *)

(** C5: for a book id present in the store and any integer change,
    [update_book_copies] answers true and leaves that book with
    max 0 (copies + change) copies, hence never below 0, and every book of
    another id as it was; for an absent id it answers false and changes
    nothing.  So the answer is true exactly when some book has the id. *)
Theorem update_book_copies_adds_and_clamps book_id change w :
  (forall book,
      find_book_in book_id (books (storage w)) = Some book ->
      exists w',
        update_book_copies book_id change w = (Ok true, w') /\
        find_book_in book_id (books (storage w')) =
          Some (Book.set_copies (Z.max 0 (Book.copies book + change)) book) /\
        0 <= Z.max 0 (Book.copies book + change) /\
        (forall other, other <> book_id ->
           find_book_in other (books (storage w')) =
           find_book_in other (books (storage w)))) /\
  (find_book_in book_id (books (storage w)) = None ->
   update_book_copies book_id change w = (Ok false, w)) /\
  (fst (update_book_copies book_id change w) = Ok true <->
   exists book, In book (books (storage w)) /\ Book.book_id book = book_id).
Proof.
  split; [|split].
  - intros book Hf.
    destruct (update_book_copies_found book_id change w book Hf)
      as (w' & Hrun & Hst & _).
    exists w'. split; [exact Hrun|]. rewrite Hst. cbn [books set_books].
    split; [|split].
    + rewrite <- change_copies_max.
      apply find_update_found; [apply change_copies_book_id | exact Hf].
    + apply Z.le_max_l.
    + intros other Hne.
      apply find_update_found_other; [apply change_copies_book_id | exact Hne].
  - apply update_book_copies_absent.
  - destruct (find_book_in book_id (books (storage w))) as [book|] eqn:Hf.
    + destruct (update_book_copies_found book_id change w book Hf)
        as (w' & Hrun & _).
      rewrite Hrun. cbn. split; [intros _ | reflexivity].
      exists book. split.
      * eapply find_book_in_In; eassumption.
      * eapply find_book_in_id; eassumption.
    + rewrite update_book_copies_absent by assumption. cbn.
      split; [discriminate|]. intros (book & Hin & Hid). exfalso.
      unfold find_book_in in Hf.
      apply (find_none _ _ Hf) in Hin. cbv beta in Hin. lia.
Qed.

Lemma update_book_copies_adds_and_clamps_witness :
  exists w',
    update_book_copies 1 (-5) (world_of small_library [] (Calendar.mkdate 2024 1 10))
      = (Ok true, w') /\
    find_book_in 1 (books (storage w')) = Some (Book.set_copies (Z.max 0 (2 + -5)) dune) /\
    0 <= Z.max 0 (2 + -5) /\
    (forall other, other <> 1 ->
       find_book_in other (books (storage w')) = find_book_in other [dune]).
Proof.
  apply (proj1 (update_book_copies_adds_and_clamps 1 (-5)
                  (world_of small_library [] (Calendar.mkdate 2024 1 10))) dune).
  reflexivity.
Defined.

(** ** issue_book: the refusals *)

(** C7: with a card number that reads as an integer, [issue_book] answers
    "card not found" when no card has that number, whatever follows on the
    input (nothing more is read, so the card is checked before the book);
    with a card found and a book id that reads as an integer, it answers
    "book not found" when no book has that id and "no copies available"
    when the book found has copies <= 0. *)
Theorem issue_book_refusals w line rest card_no :
  stdin w = line :: rest ->
  PyStr.parse_int line = Some card_no ->
  (find_card_in card_no (library_cards (storage w)) = None ->
   issue_book w = (Ok CardNotFound, set_stdin rest w)) /\
  (forall card name addr phone line2 rest2 book_id,
      find_card_in card_no (library_cards (storage w)) = Some card ->
      rest = name :: addr :: phone :: line2 :: rest2 ->
      PyStr.parse_int line2 = Some book_id ->
      (find_book_in book_id (books (storage w)) = None ->
       issue_book w = (Ok BookNotFound, set_stdin rest2 w)) /\
      (forall book,
          find_book_in book_id (books (storage w)) = Some book ->
          Book.copies book <= 0 ->
          issue_book w = (Ok NoCopiesAvailable, set_stdin rest2 w))).
Proof.
  intros Hin Hc. split.
  - intros Hf. eapply issue_book_card_not_found; eassumption.
  - intros card name addr phone line2 rest2 book_id Hf -> Hb. split.
    + intros Hfb. eapply issue_book_book_not_found; eassumption.
    + intros book Hfb Hle. eapply issue_book_no_copies; eassumption.
Qed.

Lemma issue_book_refusals_witness :
  let now := Calendar.mkdate 2024 1 10 in
  let lib := mkData [dune; sold_out] [alice] [] 3 2 1 in
  issue_book (world_of lib ["7"; "Bob"; "Elm St"; "555"; "2"] now)
    = (Ok CardNotFound, world_of lib ["Bob"; "Elm St"; "555"; "2"] now) /\
  issue_book (world_of lib ["1"; "Bob"; "Elm St"; "555"; "9"] now)
    = (Ok BookNotFound, world_of lib [] now) /\
  issue_book (world_of lib ["1"; "Bob"; "Elm St"; "555"; "2"] now)
    = (Ok NoCopiesAvailable, world_of lib [] now).
Proof.
  intros now lib. split; [|split].
  - apply (proj1 (issue_book_refusals (world_of lib ["7"; "Bob"; "Elm St"; "555"; "2"] now)
                    "7" ["Bob"; "Elm St"; "555"; "2"] 7 eq_refl eq_refl)).
    reflexivity.
  - apply (proj1 (proj2 (issue_book_refusals
                    (world_of lib ["1"; "Bob"; "Elm St"; "555"; "9"] now)
                    "1" ["Bob"; "Elm St"; "555"; "9"] 1 eq_refl eq_refl)
                    alice "Bob" "Elm St" "555" "9" [] 9 eq_refl eq_refl eq_refl)).
    reflexivity.
  - apply (proj2 (proj2 (issue_book_refusals
                    (world_of lib ["1"; "Bob"; "Elm St"; "555"; "2"] now)
                    "1" ["Bob"; "Elm St"; "555"; "2"] 1 eq_refl eq_refl)
                    alice "Bob" "Elm St" "555" "2" [] 2 eq_refl eq_refl eq_refl)
                  sold_out eq_refl).
    cbn. lia.
Defined.

(** C10: when [issue_book] answers with one of its three refusals (card
    not found, book not found, no copies available), the document is
    exactly what it was: no borrower record, no change of copies, no
    counter advanced; and the backing file is not written. *)
Theorem issue_book_refusal_keeps_store w o w' :
  issue_book w = (Ok o, w') ->
  o = CardNotFound \/ o = BookNotFound \/ o = NoCopiesAvailable ->
  storage w' = storage w /\ disk w' = disk w.
Proof.
  intros H Ho.
  destruct (issue_book_effect w (Ok o) w' H)
    as [(Hs & Hd & _) | [(_ & Hr) | Hiss]].
  - now split.
  - injection Hr as ->. destruct Ho as [Ho | [Ho | Ho]]; discriminate.
  - destruct Hiss as (l1 & name & addr & phone & l2 & rest & card_no & card &
                      book_id & book & due & _ & _ & _ & _ & _ & _ & _ & Hr & _).
    injection Hr as ->. destruct Ho as [Ho | [Ho | Ho]]; discriminate.
Qed.

Lemma issue_book_refusal_keeps_store_witness :
  let w := world_of small_library ["1"; "Bob"; "Elm St"; "555"; "9"]
                    (Calendar.mkdate 2024 1 10) in
  storage (set_stdin [] w) = storage w /\ disk (set_stdin [] w) = disk w.
Proof.
  intros w.
  apply (issue_book_refusal_keeps_store w BookNotFound (set_stdin [] w)).
  - reflexivity.
  - right; left; reflexivity.
Defined.

(** ** issue_book then return_book *)

Lemma find_borrower_in_new id l br :
  Forall (fun x => Borrower.borrower_id x <> id) l ->
  Borrower.borrower_id br = id ->
  find_borrower_in id (l ++ [br]) = Some br.
Proof.
  intros Hl Hbr. unfold find_borrower_in.
  induction Hl as [|x r Hx Hr IH]; cbn.
  - now rewrite Hbr, Z.eqb_refl.
  - destruct (Z.eqb_spec (Borrower.borrower_id x) id); [contradiction | exact IH].
Qed.

Lemma filter_out_new id l br :
  Forall (fun x => Borrower.borrower_id x <> id) l ->
  Borrower.borrower_id br = id ->
  filter (fun x => negb (Borrower.borrower_id x =? id)) (l ++ [br]) = l.
Proof.
  intros Hl Hbr.
  induction Hl as [|x r Hx Hr IH]; cbn.
  - now rewrite Hbr, Z.eqb_refl.
  - destruct (Z.eqb_spec (Borrower.borrower_id x) id); [contradiction|].
    cbn. now rewrite IH.
Qed.

(** The round trip in any store, reachable or not, in which no borrower
    record already carries the id that the borrower counter hands out
    next. *)
Lemma round_trip_when_counter_unused w bid title due w1 line rest :
  borrower_counter_unused (storage w) ->
  issue_book w = (Ok (BookIssued bid title due), w1) ->
  stdin w1 = line :: rest ->
  PyStr.parse_int line = Some bid ->
  exists w2,
    return_book w1 = (Ok (BookReturned title), w2) /\
    books (storage w2) = books (storage w) /\
    borrowers (storage w2) = borrowers (storage w) /\
    library_cards (storage w2) = library_cards (storage w).
Proof.
  intros Hfresh Hissue Hin Hline.
  destruct (issue_book_effect _ _ _ Hissue)
    as [(_ & _ & Hno) | [(_ & Hr) | Hiss]].
  - now contradiction (Hno bid title due).
  - discriminate.
  - destruct Hiss as (l1 & name & addr & phone & l2 & rest' & card_no & card &
                      book_id & book & d & _ & _ & _ & _ & Hfb & Hpos & _ &
                      Hr & _ & _ & Hst).
    injection Hr as -> -> ->.
    set (br := Borrower.mk (next_borrower_id (storage w)) card_no
                 (PyStr.strip name) (PyStr.strip addr) (PyStr.strip phone)
                 book_id (Book.title book) (Calendar.strftime (today w))
                 (Calendar.strftime d)) in *.
    assert (Hfind : find_borrower_in (next_borrower_id (storage w))
                      (borrowers (storage w1)) = Some br).
    { rewrite Hst. cbn [borrowers].
      apply find_borrower_in_new; [exact Hfresh | reflexivity]. }
    destruct (return_book_found w1 line rest _ br Hin Hline Hfind)
      as (w2 & Hrun & _ & Hst2).
    exists w2. split; [exact Hrun|].
    rewrite Hst2, Hst. cbn [books borrowers library_cards Borrower.book_id br].
    repeat split.
    + rewrite update_found_twice by apply change_copies_book_id.
      eapply update_found_same; [eassumption|].
      now apply change_copies_back.
    + apply filter_out_new; [exact Hfresh | reflexivity].
Qed.

(** Outside the stores the operations reach, the condition is needed:
    here the counter is 1 while record 1 (a loan of book 2) is still
    there.  The issue of book 1 is announced under id 1; the return of
    id 1 finds the older record first, gives a copy back to book 2 and
    removes both records. *)
Lemma issue_then_return_stale_counter :
  let now := Calendar.mkdate 2024 1 10 in
  let lib := mkData [dune; sold_out] [alice] [emma_loan] 3 2 1 in
  let w := world_of lib ["1"; "Bob"; "Elm St"; "555"; "1"; "1"] now in
  exists w1 w2,
    issue_book w = (Ok (BookIssued 1 "Dune" "2024-01-24"), w1) /\
    return_book w1 = (Ok (BookReturned "Emma"), w2) /\
    books (storage w2) = [Book.set_copies 1 dune; Book.set_copies 1 sold_out] /\
    borrowers (storage w2) = [].
Proof.
  intros now lib w.
  exists (snd (issue_book w)), (snd (return_book (snd (issue_book w)))).
  vm_compute. repeat split.
Qed.

(** ** What one operation of a session does to the document *)

Lemma bind_ret_inv {A B} (m : M A) (f : A -> B) w r w' :
  bind m (fun x => ret (f x)) w = (r, w') ->
  exists r0, m w = (r0, w') /\
             r = match r0 with Ok a => Ok (f a) | Raise e => Raise e end.
Proof.
  unfold bind, ret. destruct (m w) as [[a|e] w1]; intros [= <- <-]; eauto.
Qed.

(** The list of books after an operation: as it was, or with one book
    changed in place by [change_copies], or with the book of [add_book]
    at its end. *)
Lemma run_op_books o w r w' :
  run_op o w = (r, w') ->
  books (storage w') = books (storage w) \/
  (exists id c,
      books (storage w') = update_found id (change_copies c) (books (storage w))) \/
  (o = AddBook /\
   exists t a g c rest n,
     stdin w = t :: a :: g :: c :: rest /\ PyStr.parse_int c = Some n /\
     books (storage w') =
       (books (storage w) ++
          [Book.mk (next_book_id (storage w)) (PyStr.strip t) (PyStr.strip a)
                   (PyStr.strip g) n])%list).
Proof.
  destruct o; cbn [run_op]; intros H; apply bind_ret_inv in H;
    destruct H as (r0 & H & _).
  - destruct (add_book_effect _ _ _ H)
      as [(Hs & _) | (t & a & g & c & rest & n & Hin & Hc & _ & _ & Hs)].
    + left. now rewrite Hs.
    + right; right. split; [reflexivity|].
      exists t, a, g, c, rest, n. rewrite Hs. auto.
  - left. now apply issue_card_effect in H.
  - destruct (issue_book_effect _ _ _ H) as [(Hs & _) | [(Hs & _) | Hiss]].
    + left. now rewrite Hs.
    + left. now rewrite Hs.
    + destruct Hiss as (l1 & name & addr & phone & l2 & rest & card_no & card &
                        book_id & book & d & _ & _ & _ & _ & _ & _ & _ & _ & _ &
                        _ & Hs).
      right; left. exists book_id, (-1). now rewrite Hs.
  - destruct (return_book_effect _ _ _ H)
      as [(Hs & _) | (line & rest & id & br & _ & _ & _ & _ & _ & Hs)].
    + left. now rewrite Hs.
    + right; left. exists (Borrower.book_id br), 1. now rewrite Hs.
  - left. apply search_books_effect in H. now rewrite H.
  - destruct (update_book_copies_storage book_id change w)
      as (b & wu & Eu & Es & _).
    rewrite Eu in H. injection H as _ <-.
    right; left. exists book_id, change. now rewrite Es.
Qed.

(** The book counter after an operation: advanced by one when the
    operation announces a new book, whose id is the old value; otherwise
    untouched. *)
Lemma run_op_next_book_id o w r w' :
  run_op o w = (r, w') ->
  (r = Ok (Said (BookAdded (next_book_id (storage w)))) /\
   next_book_id (storage w') = next_book_id (storage w) + 1) \/
  ((forall i, r <> Ok (Said (BookAdded i))) /\
   next_book_id (storage w') = next_book_id (storage w)).
Proof.
  destruct o; cbn [run_op]; intros H; apply bind_ret_inv in H;
    destruct H as (r0 & H & ->).
  - destruct (add_book_effect _ _ _ H)
      as [(Hs & Hno) | (t & a & g & c & rest & n & _ & _ & -> & _ & Hs)].
    + right. rewrite Hs. split; [|reflexivity].
      intros i. destruct r0 as [x|e]; [|discriminate].
      intros [= ->]. now apply (Hno i).
    + left. rewrite Hs. split; reflexivity.
  - right. destruct (issue_card_effect _ _ _ H) as (_ & _ & Hn & _ & Hno).
    split; [|exact Hn].
    intros i. destruct r0 as [x|e]; [|discriminate].
    intros [= ->]. now apply (Hno i).
  - right.
    destruct (issue_book_effect _ _ _ H) as [(Hs & _) | [(Hs & ->) | Hiss]].
    + rewrite Hs. split; [|reflexivity]. intros i Hi.
      revert H Hi. unfold issue_book. intros H.
      destruct r0 as [x|e]; [|discriminate]. intros [= ->].
      run_in H; try settle_update; discriminate.
    + rewrite Hs. split; [discriminate | reflexivity].
    + destruct Hiss as (l1 & name & addr & phone & l2 & rest & card_no & card &
                        book_id & book & d & _ & _ & _ & _ & _ & _ & _ & -> & _ &
                        _ & Hs).
      rewrite Hs. split; [discriminate | reflexivity].
  - right.
    destruct (return_book_effect _ _ _ H)
      as [(Hs & _) | (line & rest & id & br & _ & _ & _ & -> & _ & Hs)].
    + rewrite Hs. split; [|reflexivity]. intros i Hi.
      revert H Hi. unfold return_book. intros H.
      destruct r0 as [x|e]; [|discriminate]. intros [= ->].
      run_in H; try settle_update; discriminate.
    + rewrite Hs. split; [discriminate | reflexivity].
  - right. apply search_books_effect in H. rewrite H.
    split; [|reflexivity]. destruct r0; discriminate.
  - right.
    destruct (update_book_copies_storage book_id change w)
      as (b & wu & Eu & Es & _).
    rewrite Eu in H. injection H as <- <-. rewrite Es.
    split; [discriminate | reflexivity].
Qed.

(** Borrower ids stay below the borrower counter. *)
Lemma run_op_borrower_ids o w r w' :
  run_op o w = (r, w') ->
  borrower_ids_below_counter (storage w) ->
  borrower_ids_below_counter (storage w').
Proof.
  unfold borrower_ids_below_counter.
  destruct o; cbn [run_op]; intros H Inv; apply bind_ret_inv in H;
    destruct H as (r0 & H & _).
  - destruct (add_book_effect _ _ _ H)
      as [(Hs & _) | (t & a & g & c & rest & n & _ & _ & _ & _ & Hs)];
      now rewrite Hs.
  - destruct (issue_card_effect _ _ _ H) as (_ & Hb & _ & Hn & _).
    now rewrite Hb, Hn.
  - destruct (issue_book_effect _ _ _ H) as [(Hs & _) | [(Hs & _) | Hiss]].
    + now rewrite Hs.
    + rewrite Hs. cbn. eapply Forall_impl; [|exact Inv]. cbv beta. intros; lia.
    + destruct Hiss as (l1 & name & addr & phone & l2 & rest & card_no & card &
                        book_id & book & d & _ & _ & _ & _ & _ & _ & _ & _ & _ &
                        _ & Hs).
      rewrite Hs. cbn. apply Forall_app. split.
      * eapply Forall_impl; [|exact Inv]. cbv beta. intros; lia.
      * constructor; [cbn; lia | constructor].
  - destruct (return_book_effect _ _ _ H)
      as [(Hs & _) | (line & rest & id & br & _ & _ & _ & _ & _ & Hs)].
    + now rewrite Hs.
    + rewrite Hs. cbn. apply Forall_forall. intros x Hx.
      apply filter_In in Hx. destruct Hx as (Hx & _).
      revert x Hx. now apply Forall_forall.
  - apply search_books_effect in H. now rewrite H.
  - destruct (update_book_copies_storage book_id change w)
      as (b & wu & Eu & Es & _).
    rewrite Eu in H. injection H as _ <-. now rewrite Es.
Qed.

Lemma session_borrower_ids allowed d rs d' :
  session allowed d rs d' ->
  borrower_ids_below_counter d -> borrower_ids_below_counter d'.
Proof.
  induction 1 as [d | o w r w' rs d' _ Hrun _ IH]; [easy|].
  intros Inv. apply IH. eapply run_op_borrower_ids; eassumption.
Qed.

(** Every reachable store meets the condition of the round trip. *)
Lemma reachable_borrower_counter_unused d :
  reachable d -> borrower_counter_unused d.
Proof.
  intros (rs & Hs).
  assert (Inv : borrower_ids_below_counter d).
  { eapply session_borrower_ids; [exact Hs | constructor]. }
  unfold borrower_counter_unused.
  eapply Forall_impl; [|exact Inv]. cbv beta. intros; lia.
Qed.

(** The library of the examples is reached by adding the book and
    issuing the card. *)
Lemma small_library_reachable : reachable small_library.
Proof.
  set (now := Calendar.mkdate 2024 1 10).
  exists [Ok (Said (BookAdded 1)); Ok (Said (CardIssued 1))].
  apply (session_op any_world AddBook
           (world_of default_data ["Dune"; "Herbert"; "SciFi"; "2"] now)
           (Ok (Said (BookAdded 1)))
           (mkWorld (mkData [dune] [] [] 2 1 1) [] now
                    (Holds (Json.of_data (mkData [dune] [] [] 2 1 1))) true true)
           _ _ I eq_refl).
  apply (session_op any_world IssueCard
           (world_of (mkData [dune] [] [] 2 1 1) ["Alice"; "Main"; "6"] now)
           (Ok (Said (CardIssued 1)))
           (mkWorld small_library [] now (Holds (Json.of_data small_library))
                    true true)
           _ _ I eq_refl).
  apply session_end.
Qed.

(** C1: in every store the operations reach from the default one, a
    successful [issue_book] followed at once by [return_book] with the id
    it announced puts back the list of books, that book's copies field
    included, and the list of borrower records, exactly as they were
    before the issue. *)
Theorem issue_then_return_restores w bid title due w1 line rest :
  reachable (storage w) ->
  issue_book w = (Ok (BookIssued bid title due), w1) ->
  stdin w1 = line :: rest ->
  PyStr.parse_int line = Some bid ->
  exists w2,
    return_book w1 = (Ok (BookReturned title), w2) /\
    books (storage w2) = books (storage w) /\
    borrowers (storage w2) = borrowers (storage w) /\
    library_cards (storage w2) = library_cards (storage w).
Proof.
  intros Hreach. apply round_trip_when_counter_unused.
  now apply reachable_borrower_counter_unused.
Qed.

Lemma issue_then_return_restores_witness :
  let now := Calendar.mkdate 2024 1 10 in
  let w := world_of small_library ["1"; "Alice"; "Oak St"; "555"; "1"; "1"] now in
  exists w2,
    return_book (snd (issue_book w)) = (Ok (BookReturned "Dune"), w2) /\
    books (storage w2) = [dune] /\
    borrowers (storage w2) = [] /\
    library_cards (storage w2) = [alice].
Proof.
  intros now w.
  apply (issue_then_return_restores w 1 "Dune" "2024-01-24"
           (snd (issue_book w)) "1" [] small_library_reachable); reflexivity.
Defined.

(** ** Copies and the sign of what add_book is given *)

Lemma run_op_copies_nonneg o w r w' :
  no_negative_add o w ->
  run_op o w = (r, w') ->
  copies_nonneg (storage w) -> copies_nonneg (storage w').
Proof.
  unfold copies_nonneg. intros Hallowed H Inv.
  destruct (run_op_books _ _ _ _ H)
    as [Hb | [(id & c & Hb) | (Ho & t & a & g & c & rest & n & Hin & Hc & Hb)]];
    rewrite Hb.
  - exact Inv.
  - now apply update_found_clamped.
  - apply Forall_app. split; [exact Inv|].
    constructor; [|constructor]. cbn.
    destruct (Z.lt_ge_cases n 0) as [Hneg|Hok]; [|exact Hok].
    exfalso. apply (Hallowed Ho). exists t, a, g, c, rest, n. auto.
Qed.

Lemma session_copies_nonneg d rs d' :
  session no_negative_add d rs d' ->
  copies_nonneg d -> copies_nonneg d'.
Proof.
  induction 1 as [d | o w r w' rs d' Hallowed Hrun _ IH]; [easy|].
  intros Inv. apply IH. eapply run_op_copies_nonneg; eassumption.
Qed.

(** C3, amended: in every store reached from the default one by
    [add_book], [issue_card], [issue_book], [return_book], [search_books]
    and [update_book_copies], where no [add_book] was handed a negative
    number of copies, every book has copies >= 0. *)
Theorem copies_nonneg_unless_added_negative rs d :
  session no_negative_add default_data rs d -> copies_nonneg d.
Proof.
  intros H. eapply session_copies_nonneg; [exact H | constructor].
Qed.

Lemma copies_nonneg_unless_added_negative_witness :
  copies_nonneg (mkData [Book.set_copies 0 dune] [] [] 2 1 1).
Proof.
  apply (copies_nonneg_unless_added_negative
           [Ok (Said (BookAdded 1)); Ok (Updated true)]).
  apply (session_op no_negative_add AddBook
           (world_of default_data ["Dune"; "Herbert"; "SciFi"; "2"]
                     (Calendar.mkdate 2024 1 10))
           (Ok (Said (BookAdded 1)))
           (mkWorld (mkData [dune] [] [] 2 1 1) [] (Calendar.mkdate 2024 1 10)
                    (Holds (Json.of_data (mkData [dune] [] [] 2 1 1))) true true)).
  - intros _ (t & a & g & c & rest & n & Hin & Hc & Hn).
    injection Hin as <- <- <- <- <-. vm_compute in Hc. injection Hc as <-. lia.
  - reflexivity.
  - apply (session_op no_negative_add (UpdateCopies 1 (-5))
             (world_of (mkData [dune] [] [] 2 1 1) [] (Calendar.mkdate 2024 1 11))
             (Ok (Updated true))
             (mkWorld (mkData [Book.set_copies 0 dune] [] [] 2 1 1) []
                      (Calendar.mkdate 2024 1 11)
                      (Holds (Json.of_data (mkData [Book.set_copies 0 dune] [] [] 2 1 1)))
                      true true)).
    + discriminate.
    + reflexivity.
    + apply session_end.
Defined.

(** C3 as stated fails: [add_book] stores the integer it reads, whatever
    its sign, so one [add_book] with "-5" reaches a store with a book of
    -5 copies. *)
Lemma reachable_negative_copies :
  let d := mkData [Book.mk 1 "Dune" "Herbert" "SciFi" (-5)] [] [] 2 1 1 in
  reachable d /\ ~ copies_nonneg d.
Proof.
  intros d. split.
  - exists [Ok (Said (BookAdded 1))].
    apply (session_op any_world AddBook
             (world_of default_data ["Dune"; "Herbert"; "SciFi"; "-5"]
                       (Calendar.mkdate 2024 1 10))
             (Ok (Said (BookAdded 1)))
             (mkWorld d [] (Calendar.mkdate 2024 1 10)
                      (Holds (Json.of_data d)) true true)).
    + exact I.
    + reflexivity.
    + apply session_end.
  - intros H. inversion H as [|b l Hb _]. cbn in Hb. lia.
Qed.

(** ** add_book and its input *)

(** C4, amended: [add_book] answers "invalid input", adding no book and
    leaving the document as it was, when the text given for the copies is
    not an integer literal; a text that reads as an integer of either sign
    is accepted, and the book is appended with that number of copies under
    the id the book counter held. *)
Theorem add_book_rejects_only_non_integers w t a g c rest :
  stdin w = t :: a :: g :: c :: rest ->
  (PyStr.parse_int c = None ->
   add_book w = (Ok InvalidInput, set_stdin rest w)) /\
  (forall n,
      PyStr.parse_int c = Some n ->
      exists w',
        add_book w = (Ok (BookAdded (next_book_id (storage w))), w') /\
        storage w' =
          mkData (books (storage w) ++
                    [Book.mk (next_book_id (storage w)) (PyStr.strip t)
                             (PyStr.strip a) (PyStr.strip g) n])
                 (library_cards (storage w)) (borrowers (storage w))
                 (next_book_id (storage w) + 1) (next_card_no (storage w))
                 (next_borrower_id (storage w))).
Proof.
  intros Hin. split.
  - intros Hc. eapply add_book_invalid; eassumption.
  - intros n Hc.
    destruct (add_book_added w t a g c rest n Hin Hc) as (w' & Hrun & _ & Hs).
    eauto.
Qed.

Lemma add_book_rejects_only_non_integers_witness :
  let now := Calendar.mkdate 2024 1 10 in
  add_book (world_of small_library ["Emma"; "Austen"; "Novel"; "two"] now)
    = (Ok InvalidInput, world_of small_library [] now) /\
  exists w',
    add_book (world_of small_library ["Emma"; "Austen"; "Novel"; "3"] now)
      = (Ok (BookAdded 2), w') /\
    storage w' = mkData [dune; Book.mk 2 "Emma" "Austen" "Novel" 3] [alice] [] 3 2 1.
Proof.
  intros now. split.
  - apply (proj1 (add_book_rejects_only_non_integers
                    (world_of small_library ["Emma"; "Austen"; "Novel"; "two"] now)
                    "Emma" "Austen" "Novel" "two" [] eq_refl)).
    reflexivity.
  - apply (proj2 (add_book_rejects_only_non_integers
                    (world_of small_library ["Emma"; "Austen"; "Novel"; "3"] now)
                    "Emma" "Austen" "Novel" "3" [] eq_refl) 3).
    reflexivity.
Defined.

(** C4 as stated fails on a negative number: "-5" is an integer literal,
    [int] reads it, and the book is added with -5 copies. *)
Lemma add_book_accepts_negative :
  let now := Calendar.mkdate 2024 1 10 in
  let w := world_of default_data ["Dune"; "Herbert"; "SciFi"; "-5"] now in
  exists w',
    add_book w = (Ok (BookAdded 1), w') /\
    books (storage w') = [Book.mk 1 "Dune" "Herbert" "SciFi" (-5)] /\
    fst (add_book w) <> Ok InvalidInput /\
    storage w' <> storage w.
Proof.
  intros now w. exists (snd (add_book w)).
  repeat split; discriminate.
Qed.

(** ** Identifiers *)

Lemma get_next_id_run key w :
  get_next_id key w =
  (Ok (counter_get key (storage w)),
   set_storage (counter_set key (counter_get key (storage w) + 1) (storage w)) w).
Proof. reflexivity. Qed.

Lemma counter_get_set key v d : counter_get key (counter_set key v d) = v.
Proof. now destruct key. Qed.

Lemma StronglySorted_lt_NoDup (l : list Z) :
  StronglySorted Z.lt l -> NoDup l.
Proof.
  induction 1 as [|a l _ IH Ha]; constructor; [|exact IH].
  intros Hin. rewrite Forall_forall in Ha. specialize (Ha a Hin). lia.
Qed.

(** [n] calls in a row hand out the [n] values from the counter on. *)
Lemma get_next_ids_run key n :
  forall w, exists ids w',
    get_next_ids key n w = (Ok ids, w') /\
    List.length ids = n /\
    Forall (fun i => counter_get key (storage w) <= i
                     < counter_get key (storage w) + Z.of_nat n) ids /\
    StronglySorted Z.lt ids /\
    counter_get key (storage w') = counter_get key (storage w) + Z.of_nat n.
Proof.
  induction n as [|n IH]; intros w.
  - exists [], w. cbn. repeat split; try constructor. lia.
  - cbn [get_next_ids]. unfold bind at 1. rewrite get_next_id_run.
    set (w1 := set_storage _ w).
    destruct (IH w1) as (ids & w' & Hrun & Hlen & Hall & Hsorted & Hctr).
    unfold bind at 1. rewrite Hrun. unfold ret.
    assert (Hw1 : counter_get key (storage w1) = counter_get key (storage w) + 1).
    { unfold w1. cbn [storage set_storage]. apply counter_get_set. }
    rewrite Hw1 in Hall, Hctr.
    exists (counter_get key (storage w) :: ids), w'.
    split; [reflexivity|]. split; [cbn; now rewrite Hlen|].
    split; [|split].
    + constructor; [lia|].
      eapply Forall_impl; [|exact Hall]. cbv beta. intros; lia.
    + constructor; [exact Hsorted|].
      eapply Forall_impl; [|exact Hall]. cbv beta. intros; lia.
    + lia.
Qed.

(** The book ids a session announces all come from the counter, which
    only moves forward. *)
Lemma session_added_ids allowed d rs d' :
  session allowed d rs d' ->
  Forall (fun i => next_book_id d <= i) (added_ids rs) /\
  StronglySorted Z.lt (added_ids rs).
Proof.
  induction 1 as [d | o w r w' rs d' _ Hrun _ (IHall & IHsorted)].
  - split; constructor.
  - destruct (run_op_next_book_id _ _ _ _ Hrun) as [(-> & Hn) | (Hno & Hn)];
      rewrite Hn in IHall.
    + cbn [added_ids]. split.
      * constructor; [lia|].
        eapply Forall_impl; [|exact IHall]. cbv beta. intros; lia.
      * constructor; [exact IHsorted|].
        eapply Forall_impl; [|exact IHall]. cbv beta. intros; lia.
    + assert (E : added_ids (r :: rs) = added_ids rs).
      { destruct r as [[[i| | | | | | | | |]| |]|]; try reflexivity.
        now contradiction (Hno i). }
      rewrite E. now split.
Qed.

(** C6: [get_next_id] returns the value the counter holds and leaves it
    one higher; any number of calls in a row on one counter return
    strictly increasing values, no value twice, and leave the counter
    higher by the number of calls; and the book ids announced by the
    [add_book] calls of any session, whatever runs between them, are
    strictly increasing without repetition. *)
Theorem ids_strictly_increasing :
  (forall key w,
      exists w',
        get_next_id key w = (Ok (counter_get key (storage w)), w') /\
        counter_get key (storage w') = counter_get key (storage w) + 1) /\
  (forall key n w,
      exists ids w',
        get_next_ids key n w = (Ok ids, w') /\
        List.length ids = n /\
        StronglySorted Z.lt ids /\ NoDup ids /\
        counter_get key (storage w') = counter_get key (storage w) + Z.of_nat n) /\
  (forall allowed d rs d',
      session allowed d rs d' ->
      StronglySorted Z.lt (added_ids rs) /\ NoDup (added_ids rs)).
Proof.
  split; [|split].
  - intros key w. eexists. rewrite get_next_id_run. split; [reflexivity|].
    cbn [storage set_storage]. apply counter_get_set.
  - intros key n w.
    destruct (get_next_ids_run key n w)
      as (ids & w' & Hrun & Hlen & _ & Hsorted & Hctr).
    exists ids, w'. repeat split; auto using StronglySorted_lt_NoDup.
  - intros allowed d rs d' Hs.
    destruct (session_added_ids _ _ _ _ Hs) as (_ & Hsorted).
    split; auto using StronglySorted_lt_NoDup.
Qed.

Lemma ids_strictly_increasing_witness :
  StronglySorted Z.lt [1; 2] /\ NoDup [1; 2].
Proof.
  apply (proj2 (proj2 ids_strictly_increasing) any_world default_data
               [Ok (Said (BookAdded 1)); Ok (Said InvalidInput); Ok (Said (BookAdded 2))]
               (mkData [dune; sold_out] [] [] 3 1 1)).
  apply (session_op any_world AddBook
           (world_of default_data ["Dune"; "Herbert"; "SciFi"; "2"]
                     (Calendar.mkdate 2024 1 10))
           (Ok (Said (BookAdded 1)))
           (mkWorld (mkData [dune] [] [] 2 1 1) [] (Calendar.mkdate 2024 1 10)
                    (Holds (Json.of_data (mkData [dune] [] [] 2 1 1))) true true)
           _ _ I eq_refl).
  apply (session_op any_world AddBook
           (world_of (mkData [dune] [] [] 2 1 1) ["Emma"; "Austen"; "Novel"; "none"]
                     (Calendar.mkdate 2024 1 10))
           (Ok (Said InvalidInput))
           (world_of (mkData [dune] [] [] 2 1 1) [] (Calendar.mkdate 2024 1 10))
           _ _ I eq_refl).
  apply (session_op any_world AddBook
           (world_of (mkData [dune] [] [] 2 1 1) ["Emma"; "Austen"; "Novel"; "0"]
                     (Calendar.mkdate 2024 1 10))
           (Ok (Said (BookAdded 2)))
           (mkWorld (mkData [dune; sold_out] [] [] 3 1 1) []
                    (Calendar.mkdate 2024 1 10)
                    (Holds (Json.of_data (mkData [dune; sold_out] [] [] 3 1 1))) true true)
           _ _ I eq_refl).
  apply session_end.
Defined.

(** ** The due date *)

(** Within the month, [n] days later is the same month, [n] days on. *)
Lemma add_days_within_month n :
  forall d,
    Calendar.day d + Z.of_nat n
      <= Calendar.days_in_month (Calendar.year d) (Calendar.month d) ->
    Calendar.add_days n d =
    Calendar.mkdate (Calendar.year d) (Calendar.month d)
                    (Calendar.day d + Z.of_nat n).
Proof.
  induction n as [|n IH]; intros d H.
  - cbn. destruct d; cbn. f_equal. lia.
  - cbn [Calendar.add_days]. unfold Calendar.next_day.
    destruct (Z.ltb_spec (Calendar.day d)
                (Calendar.days_in_month (Calendar.year d) (Calendar.month d)));
      [|lia].
    rewrite IH; cbn [Calendar.year Calendar.month Calendar.day]; [f_equal|]; lia.
Qed.

(** Where [replace(day=day+14)] answers, it answers the date 14 calendar
    days later. *)
Lemma replace_day_is_add_days d d' :
  Calendar.replace_day d (Calendar.day d + 14) = Some d' ->
  d' = Calendar.add_days 14 d.
Proof.
  unfold Calendar.replace_day.
  destruct (Z.leb_spec 1 (Calendar.day d + 14)); cbn [andb]; [|discriminate].
  destruct (Z.leb_spec (Calendar.day d + 14)
              (Calendar.days_in_month (Calendar.year d) (Calendar.month d)));
    [|discriminate].
  intros [= <-]. symmetry. now apply (add_days_within_month 14).
Qed.

(** The part of C2 the code keeps: a loan that is recorded carries the
    issue date and the date 14 calendar days later. *)
Lemma issue_book_due_date w bid title due w' :
  issue_book w = (Ok (BookIssued bid title due), w') ->
  due = Calendar.strftime (Calendar.add_days 14 (today w)) /\
  exists br,
    borrowers (storage w') = (borrowers (storage w) ++ [br])%list /\
    Borrower.borrower_id br = bid /\
    Borrower.issued_date br = Calendar.strftime (today w) /\
    Borrower.return_date br = Calendar.strftime (Calendar.add_days 14 (today w)).
Proof.
  intros H.
  destruct (issue_book_effect _ _ _ H) as [(_ & _ & Hno) | [(_ & Hr) | Hiss]].
  - now contradiction (Hno bid title due).
  - discriminate.
  - destruct Hiss as (l1 & name & addr & phone & l2 & rest & card_no & card &
                      book_id & book & d & _ & _ & _ & _ & _ & _ & Hd & Hr & _ &
                      _ & Hs).
    injection Hr as -> -> ->.
    apply replace_day_is_add_days in Hd. subst d.
    split; [reflexivity|]. eexists. rewrite Hs. cbn [borrowers].
    split; [reflexivity|]. repeat split.
Qed.

(** C2, at an input the claim covers and the code does not serve: on
    20 January 2024 the date 14 calendar days later exists (3 February),
    the card and the book exist and a copy is free, yet [issue_book]
    answers "invalid input": [replace(day=34)] raises [ValueError].  No
    loan is recorded, the copies stay, and the borrower id that was
    already taken from the counter is lost. *)
Theorem issue_book_fails_late_in_month :
  let now := Calendar.mkdate 2024 1 20 in
  let w := world_of small_library ["1"; "Alice"; "Oak St"; "555"; "1"] now in
  Calendar.valid now /\
  Calendar.add_days 14 now = Calendar.mkdate 2024 2 3 /\
  find_card_in 1 (library_cards (storage w)) = Some alice /\
  find_book_in 1 (books (storage w)) = Some dune /\
  0 < Book.copies dune /\
  issue_book w = (Ok InvalidInput, world_of (mkData [dune] [alice] [] 2 2 2) [] now).
Proof.
  intros now w. unfold Calendar.valid.
  repeat split; try (vm_compute; congruence); reflexivity.
Qed.

(** ** load_data *)

Lemma traverse_map {A B} (f : A -> option B) (g : B -> A) (l : list B) :
  (forall b, f (g b) = Some b) -> Json.traverse f (map g l) = Some l.
Proof.
  intros H. induction l as [|b r IH]; cbn; [reflexivity|].
  now rewrite H, IH.
Qed.

(** What [save_data] writes reads back as the document it was. *)
Lemma to_data_of_data d : Json.to_data (Json.of_data d) = Some d.
Proof.
  destruct d as [bs cs rs n1 n2 n3].
  cbn -[Json.traverse Json.of_book Json.of_card Json.of_borrower
        Json.to_book Json.to_card Json.to_borrower].
  rewrite !traverse_map; [reflexivity | | |].
  - now intros [].
  - now intros [].
  - now intros [].
Qed.

Lemma default_document_data : default_document = Json.of_data default_data.
Proof. reflexivity. Qed.




(** Contents that are not text: the read raises [UnicodeDecodeError], which
    the [except] clause of [load_data] does not name, although it names
    the error of contents that are not JSON; the exception leaves
    [load_data]. *)
Lemma load_data_undecodable_escapes :
  load_data (Unreadable UnicodeDecodeError) = Raise UnicodeDecodeError.
Proof. reflexivity. Qed.

(** ** search_books *)

Lemma prefix_occurs k :
  forall s, prefix k s = true <-> exists post, s = (k ++ post)%string.
Proof.
  induction k as [|a k IH]; intros s.
  - split; [intros _; now exists s | intros _; now destruct s].
  - destruct s as [|b s]; cbn.
    + split; [discriminate | intros (post & H); discriminate].
    + destruct (ascii_dec a b) as [->|Hne].
      * rewrite IH. split; intros (post & H); exists post.
        -- now rewrite H.
        -- now injection H.
      * split; [discriminate|]. intros (post & H). injection H as H _.
        now contradiction Hne.
Qed.

(** The test behind [in] decides "occurs in". *)
Lemma contains_occurs k :
  forall s, PyStr.contains k s = true <-> occurs_in k s.
Proof.
  unfold occurs_in.
  induction s as [|c s IH]; cbn [PyStr.contains];
    rewrite orb_true_iff, prefix_occurs.
  - split.
    + intros [(post & H) | H]; [|discriminate]. now exists EmptyString, post.
    + intros (pre & post & H). left.
      destruct pre; [|discriminate]. now exists post.
  - rewrite IH. split.
    + intros [(post & H) | (pre & post & H)].
      * now exists EmptyString, post.
      * exists (String c pre), post. cbn. now rewrite H.
    + intros (pre & post & H). destruct pre as [|c' pre]; cbn in H.
      * left. now exists post.
      * right. injection H as _ H. now exists pre, post.
Qed.

Lemma book_matches_selected k book :
  book_matches (PyStr.lower k) book = true <-> selected k book.
Proof.
  unfold book_matches, selected, occurs_in_ci.
  now rewrite !orb_true_iff, !contains_occurs, or_assoc.
Qed.

(** C9, amended: [search_books] answers exactly the books whose title,
    author or genre contains, without regard to case, the keyword with the
    blanks around it removed; they come in the order of the list of
    books, none when nothing matches; the document is not changed. *)
Theorem search_books_selects w line rest :
  stdin w = line :: rest ->
  exists results,
    search_books w = (Ok results, set_stdin rest w) /\
    storage (set_stdin rest w) = storage w /\
    (exists test,
        (forall book, test book = true <-> selected (PyStr.strip line) book) /\
        results = filter test (books (storage w))) /\
    (forall book,
        In book results <->
        In book (books (storage w)) /\ selected (PyStr.strip line) book) /\
    ((forall book, In book (books (storage w)) ->
                   ~ selected (PyStr.strip line) book) ->
     results = []).
Proof.
  intros Hin.
  exists (filter (book_matches (PyStr.lower (PyStr.strip line))) (books (storage w))).
  split; [|split; [|split; [|split]]].
  - unfold search_books, bind, input, gets. now rewrite Hin.
  - reflexivity.
  - exists (book_matches (PyStr.lower (PyStr.strip line))).
    split; [|reflexivity]. intros book. apply book_matches_selected.
  - intros book. now rewrite filter_In, book_matches_selected.
  - intros Hnone.
    destruct (filter _ _) as [|b l] eqn:E; [reflexivity|]. exfalso.
    assert (Hb : In b (filter (book_matches (PyStr.lower (PyStr.strip line)))
                              (books (storage w)))) by (rewrite E; now left).
    apply filter_In in Hb. destruct Hb as (Hb & Hm).
    apply book_matches_selected in Hm. now apply (Hnone b).
Qed.

Lemma search_books_selects_witness :
  let w := world_of (mkData [dune; sold_out] [alice] [] 3 2 1) ["HERB"]
                    (Calendar.mkdate 2024 1 10) in
  exists results,
    search_books w = (Ok results, set_stdin [] w) /\
    storage (set_stdin [] w) = storage w /\
    (exists test,
        (forall book, test book = true <-> selected (PyStr.strip "HERB") book) /\
        results = filter test [dune; sold_out]) /\
    (forall book,
        In book results <->
        In book [dune; sold_out] /\ selected (PyStr.strip "HERB") book) /\
    ((forall book, In book [dune; sold_out] ->
                   ~ selected (PyStr.strip "HERB") book) ->
     results = []).
Proof.
  intros w. apply (search_books_selects w "HERB" []). reflexivity.
Defined.

(** C9 as stated fails on a keyword with a blank around it: the search
    for " dune" answers the book "Dune", in whose title, author and genre
    the five characters " dune" do not occur, whatever the case. *)
Lemma search_books_strips_keyword :
  let w := world_of small_library [" dune"] (Calendar.mkdate 2024 1 10) in
  search_books w = (Ok [dune], set_stdin [] w) /\
  ~ selected " dune" dune.
Proof.
  intros w. split; [reflexivity|].
  rewrite <- book_matches_selected. discriminate.
Qed.

(** * Further properties of the operations *)

(** ** Every operation moves the document by one of the known moves *)

Lemma issue_card_moves w r w' :
  issue_card w = (r, w') ->
  storage w' = storage w \/
  exists name branch l3 rest subscription,
    stdin w = name :: branch :: l3 :: rest /\
    PyStr.parse_int l3 = Some subscription /\
    r = Ok (CardIssued (next_card_no (storage w))) /\
    storage w' =
      mkData (books (storage w))
             (library_cards (storage w) ++
                [LibraryCard.mk (next_card_no (storage w)) (PyStr.strip name)
                                (PyStr.strip branch) subscription
                                (Calendar.strftime (today w))])
             (borrowers (storage w))
             (next_book_id (storage w)) (next_card_no (storage w) + 1)
             (next_borrower_id (storage w)).
Proof.
  intros H. unfold issue_card in H. run_in H.
  all: injection H as <- <-.
  all: try (left; reflexivity).
  all: right; repeat eexists; eauto.
Qed.

Lemma run_op_store_step o w r w' :
  run_op o w = (r, w') -> store_step (storage w) (storage w').
Proof.
  destruct o; cbn [run_op]; intros H; apply bind_ret_inv in H;
    destruct H as (r0 & H & _).
  - destruct (add_book_effect _ _ _ H)
      as [(Hs & _) | (t & a & g & c & rest & n & _ & _ & _ & _ & Hs)];
      rewrite Hs; constructor.
  - destruct (issue_card_moves _ _ _ H)
      as [Hs | (name & branch & l3 & rest & sub & _ & _ & _ & Hs)];
      rewrite Hs; constructor.
  - destruct (issue_book_effect _ _ _ H) as [(Hs & _) | [(Hs & _) | Hiss]].
    + rewrite Hs. constructor.
    + rewrite Hs. constructor.
    + destruct Hiss as (l1 & name & addr & phone & l2 & rest & card_no & card &
                        book_id & book & d & _ & _ & Hc & _ & Hb & Hpos & _ & _ &
                        _ & _ & Hs).
      rewrite Hs. econstructor; eassumption.
  - destruct (return_book_effect _ _ _ H)
      as [(Hs & _) | (line & rest & id & br & _ & _ & Hf & _ & _ & Hs)];
      rewrite Hs; [constructor | now constructor].
  - apply search_books_effect in H. rewrite H. constructor.
  - destruct (update_book_copies_storage book_id change w)
      as (b & wu & Eu & Es & _).
    rewrite Eu in H. injection H as _ <-. rewrite Es. constructor.
Qed.

(** What every move keeps, every session keeps. *)
Lemma session_keeps (Inv : Data -> Prop) :
  (forall d d', store_step d d' -> Inv d -> Inv d') ->
  forall allowed d rs d', session allowed d rs d' -> Inv d -> Inv d'.
Proof.
  intros Hstep allowed d rs d'.
  induction 1 as [d | o w r w' rs d' _ Hrun _ IH]; [easy|].
  intros Hd. apply IH. eapply Hstep; [|exact Hd].
  eapply run_op_store_step; eassumption.
Qed.

(** ** Identifiers: unique and below their counters *)

Lemma update_found_book_ids book_id f l :
  (forall b, Book.book_id (f b) = Book.book_id b) ->
  map Book.book_id (update_found book_id f l) = map Book.book_id l.
Proof.
  intros Hf. induction l as [|b r IH]; cbn; [reflexivity|].
  destruct (Book.book_id b =? book_id); cbn; now rewrite ?Hf, ?IH.
Qed.

Lemma NoDup_keys_snoc {A} (key : A -> Z) l x n :
  Forall (fun a => key a < n) l ->
  n <= key x ->
  NoDup (map key l) -> NoDup (map key (l ++ [x])).
Proof.
  intros Hl Hx Hnd. rewrite map_app. cbn.
  apply NoDup_app.
  - exact Hnd.
  - constructor; [intros [] | constructor].
  - intros k Hk [<- | []].
    apply in_map_iff in Hk. destruct Hk as (a & Ha & Hin).
    rewrite Forall_forall in Hl. specialize (Hl a Hin). lia.
Qed.

Lemma NoDup_keys_filter {A} (key : A -> Z) (p : A -> bool) l :
  NoDup (map key l) -> NoDup (map key (filter p l)).
Proof.
  induction l as [|a r IH]; cbn; [easy|].
  intros H. inversion H as [|k ks Hnotin Hnd]; subst.
  destruct (p a); cbn; [|now apply IH].
  constructor; [|now apply IH].
  intros Hin. apply Hnotin.
  apply in_map_iff in Hin. destruct Hin as (b & Hb & Hin).
  apply filter_In in Hin. apply in_map_iff. exists b. tauto.
Qed.

Lemma Forall_filter {A} (P : A -> Prop) (p : A -> bool) l :
  Forall P l -> Forall P (filter p l).
Proof.
  rewrite !Forall_forall. intros H a Ha. apply filter_In in Ha. now apply H.
Qed.

Lemma Forall_below_weaken {A} (key : A -> Z) n l :
  Forall (fun a => key a < n) l -> Forall (fun a => key a < n + 1) l.
Proof.
  intros H. eapply Forall_impl; [|exact H]. cbv beta. intros; lia.
Qed.

Lemma Forall_below_snoc {A} (key : A -> Z) n l x :
  Forall (fun a => key a < n) l -> key x = n ->
  Forall (fun a => key a < n + 1) (l ++ [x]).
Proof.
  intros H Hx. apply Forall_app. split; [now apply Forall_below_weaken|].
  constructor; [lia | constructor].
Qed.

Lemma store_step_ids_in_order d d' :
  store_step d d' -> ids_in_order d -> ids_in_order d'.
Proof.
  unfold ids_in_order.
  intros Hstep ((Hb1 & Hb2) & (Hc1 & Hc2) & (Hr1 & Hr2)).
  destruct Hstep; cbn.
  - auto.
  - repeat split; auto.
    + now apply (Forall_below_snoc Book.book_id).
    + apply (NoDup_keys_snoc Book.book_id _ _ (next_book_id d)); cbn; auto; lia.
  - repeat split; auto.
    + now apply (Forall_below_snoc LibraryCard.card_no).
    + apply (NoDup_keys_snoc LibraryCard.card_no _ _ (next_card_no d)); cbn;
        auto; lia.
  - repeat split; auto.
    now apply (Forall_below_weaken Borrower.borrower_id).
  - repeat split; auto.
    + apply update_found_Forall; [|exact Hb1].
      intros b. now rewrite change_copies_book_id.
    + rewrite update_found_book_ids by apply change_copies_book_id. exact Hb2.
    + now apply (Forall_below_snoc Borrower.borrower_id).
    + apply (NoDup_keys_snoc Borrower.borrower_id _ _ (next_borrower_id d));
        cbn; auto; lia.
  - repeat split; auto.
    + apply update_found_Forall; [|exact Hb1].
      intros b. now rewrite change_copies_book_id.
    + rewrite update_found_book_ids by apply change_copies_book_id. exact Hb2.
    + now apply Forall_filter.
    + now apply NoDup_keys_filter.
  - repeat split; auto.
    + apply update_found_Forall; [|exact Hb1].
      intros b. now rewrite change_copies_book_id.
    + rewrite update_found_book_ids by apply change_copies_book_id. exact Hb2.
Qed.

Lemma default_ids_in_order : ids_in_order default_data.
Proof. unfold ids_in_order. cbn. repeat split; constructor. Qed.

Lemma session_ids_in_order allowed rs d :
  session allowed default_data rs d -> ids_in_order d.
Proof.
  intros Hs.
  eapply (session_keeps ids_in_order); eauto using store_step_ids_in_order.
  apply default_ids_in_order.
Qed.

(** X1: in every store reached from the default one, the ids of the
    books, the numbers of the cards and the ids of the borrower records
    are each without repetition and below the counter that hands them
    out. *)
Theorem reachable_ids_in_order d :
  reachable d -> ids_in_order d.
Proof.
  intros (rs & Hs). eapply session_ids_in_order; eassumption.
Qed.

Lemma session_weaken (P Q : op -> World -> Prop) d rs d' :
  (forall o w, P o w -> Q o w) ->
  session P d rs d' -> session Q d rs d'.
Proof.
  intros HPQ. induction 1; econstructor; eauto.
Qed.

Lemma positive_add_allowed t a g rest d now :
  no_negative_add AddBook (world_of d (t :: a :: g :: "2" :: rest) now).
Proof.
  intros _ (t' & a' & g' & c & rest' & n & Hin & Hc & Hn).
  injection Hin as <- <- <- <- <-. vm_compute in Hc. injection Hc as <-. lia.
Qed.

(** The scenario of the spec is a session: a book added, a card issued,
    the book lent. *)
Lemma loaned_library_session :
  session no_negative_add default_data
          [Ok (Said (BookAdded 1)); Ok (Said (CardIssued 1));
           Ok (Said (BookIssued 1 "Dune" "2024-01-24"))]
          loaned_library.
Proof.
  set (now := Calendar.mkdate 2024 1 10).
  apply (session_op no_negative_add AddBook
           (world_of default_data ["Dune"; "Herbert"; "SciFi"; "2"] now)
           (Ok (Said (BookAdded 1)))
           (mkWorld (mkData [dune] [] [] 2 1 1) [] now
                    (Holds (Json.of_data (mkData [dune] [] [] 2 1 1))) true true)
           _ _ (positive_add_allowed _ _ _ _ _ _) eq_refl).
  apply (session_op no_negative_add IssueCard
           (world_of (mkData [dune] [] [] 2 1 1) ["Alice"; "Main"; "6"] now)
           (Ok (Said (CardIssued 1)))
           (mkWorld small_library [] now (Holds (Json.of_data small_library)) true true)
           _ _ ltac:(discriminate) eq_refl).
  apply (session_op no_negative_add IssueBook
           (world_of small_library ["1"; "Alice"; "Oak St"; "555"; "1"] now)
           (Ok (Said (BookIssued 1 "Dune" "2024-01-24")))
           (mkWorld loaned_library [] now (Holds (Json.of_data loaned_library)) true true)
           _ _ ltac:(discriminate) eq_refl).
  apply session_end.
Qed.

Lemma loaned_library_reachable : reachable loaned_library.
Proof.
  eexists. eapply session_weaken; [|exact loaned_library_session].
  intros o w _. exact I.
Qed.

Lemma reachable_ids_in_order_witness : ids_in_order loaned_library.
Proof.
  apply (reachable_ids_in_order loaned_library).
  exact loaned_library_reachable.
Defined.

(** ** Loans stay linked to their card and their book *)

Lemma find_book_in_snoc id l x book :
  find_book_in id l = Some book -> find_book_in id (l ++ [x]) = Some book.
Proof.
  unfold find_book_in. induction l as [|b r IH]; cbn; [discriminate|].
  destruct (Book.book_id b =? id); auto.
Qed.

Lemma find_card_in_snoc c l x card :
  find_card_in c l = Some card -> find_card_in c (l ++ [x]) = Some card.
Proof.
  unfold find_card_in. induction l as [|b r IH]; cbn; [discriminate|].
  destruct (LibraryCard.card_no b =? c); auto.
Qed.

Lemma change_copies_title change book :
  Book.title (change_copies change book) = Book.title book.
Proof.
  unfold change_copies. cbn. now destruct (_ <? _).
Qed.

(** Changing copies in place keeps every lookup, up to the copies. *)
Lemma find_book_in_update_found id id' change l book :
  find_book_in id l = Some book ->
  exists book',
    find_book_in id (update_found id' (change_copies change) l) = Some book' /\
    Book.title book' = Book.title book.
Proof.
  intros H. destruct (Z.eq_dec id id') as [->|Hne].
  - exists (change_copies change book). split.
    + apply find_update_found; [apply change_copies_book_id | exact H].
    + apply change_copies_title.
  - exists book. split; [|reflexivity].
    rewrite find_update_found_other; auto using change_copies_book_id.
Qed.

(** A loan linked in [d] is linked in any document that keeps the cards
    and the books of [d] findable, the books under their titles. *)
Lemma loan_linked_kept d d' br :
  (forall c card, find_card_in c (library_cards d) = Some card ->
                  exists card', find_card_in c (library_cards d') = Some card') ->
  (forall id book, find_book_in id (books d) = Some book ->
                   exists book', find_book_in id (books d') = Some book' /\
                                 Book.title book' = Book.title book) ->
  loan_linked d br -> loan_linked d' br.
Proof.
  intros Hc Hb ((card & Hcard) & (book & Hbook & Htitle)). split.
  - eapply Hc; eassumption.
  - destruct (Hb _ _ Hbook) as (book' & Hf & Ht).
    exists book'. split; [exact Hf | congruence].
Qed.

Lemma store_step_loans_linked d d' :
  store_step d d' -> loans_linked d -> loans_linked d'.
Proof.
  unfold loans_linked. intros Hstep Inv.
  assert (Hkeep : forall d2,
             (forall c card, find_card_in c (library_cards d) = Some card ->
                exists card', find_card_in c (library_cards d2) = Some card') ->
             (forall id book, find_book_in id (books d) = Some book ->
                exists book', find_book_in id (books d2) = Some book' /\
                              Book.title book' = Book.title book) ->
             Forall (loan_linked d2) (borrowers d)).
  { intros d2 Hc Hb. eapply Forall_impl; [|exact Inv].
    intros br. now apply loan_linked_kept. }
  destruct Hstep as [ | t a g c | n b s dt | | card book card_no book_id name
                      address phone issued due Hcard Hbook Hpos | id br Hbr
                    | id change]; cbn [borrowers].
  - exact Inv.
  - apply Hkeep; cbn; eauto using find_book_in_snoc.
  - apply Hkeep; cbn; eauto using find_card_in_snoc.
  - apply Hkeep; cbn; eauto.
  - apply Forall_app. split.
    + apply Hkeep; cbn; eauto using find_book_in_update_found.
    + constructor; [|constructor]. split; cbn.
      * eauto.
      * exists (change_copies (-1) book). split.
        -- apply find_update_found; [apply change_copies_book_id | exact Hbook].
        -- apply change_copies_title.
  - apply Forall_filter.
    apply Hkeep; cbn; eauto using find_book_in_update_found.
  - apply Hkeep; cbn; eauto using find_book_in_update_found.
Qed.

(** X2: in every store reached from the default one, each borrower record
    names a card that is in the store and a book that is in the store, and
    the title copied into the record is still the title of that book. *)
Theorem reachable_loans_linked d :
  reachable d -> loans_linked d.
Proof.
  intros (rs & Hs).
  eapply (session_keeps loans_linked); eauto using store_step_loans_linked.
  constructor.
Qed.

Lemma reachable_loans_linked_witness : loans_linked loaned_library.
Proof.
  apply (reachable_loans_linked loaned_library).
  exact loaned_library_reachable.
Defined.

(** ** Copies and loans balance *)

Lemma sum_copies_from (l : list Book.t) acc :
  fold_left (fun a book => a + Book.copies book) l acc = acc + sum_copies l.
Proof.
  unfold sum_copies. revert acc.
  induction l as [|b r IH]; intros acc; cbn [fold_left]; [lia|].
  rewrite (IH (acc + Book.copies b)), (IH (0 + Book.copies b)). lia.
Qed.

Lemma sum_copies_cons b l :
  sum_copies (b :: l) = Book.copies b + sum_copies l.
Proof.
  unfold sum_copies at 1. cbn [fold_left]. rewrite sum_copies_from. lia.
Qed.

Lemma sum_copies_update_found id f l book :
  find_book_in id l = Some book ->
  sum_copies (update_found id f l) =
  sum_copies l - Book.copies book + Book.copies (f book).
Proof.
  unfold find_book_in.
  induction l as [|b r IH]; cbn [update_found find]; [discriminate|].
  destruct (Book.book_id b =? id).
  - intros [= ->]. rewrite !sum_copies_cons. lia.
  - intros H. rewrite !sum_copies_cons, (IH H). lia.
Qed.

Lemma length_update_found id f l :
  List.length (update_found id f l) = List.length l.
Proof.
  induction l as [|b r IH]; cbn; [reflexivity|].
  destruct (Book.book_id b =? id); cbn; now rewrite ?IH.
Qed.

Lemma filter_out_absent id l :
  ~ In id (map Borrower.borrower_id l) ->
  filter (fun x => negb (Borrower.borrower_id x =? id)) l = l.
Proof.
  induction l as [|b r IH]; cbn; [reflexivity|].
  intros H. destruct (Z.eqb_spec (Borrower.borrower_id b) id) as [E|E]; cbn.
  - exfalso. apply H. now left.
  - rewrite IH; [reflexivity|]. intros Hin. apply H. now right.
Qed.

(** With ids that occur once, a return removes exactly one record. *)
Lemma length_filter_out_found id l br :
  NoDup (map Borrower.borrower_id l) ->
  find_borrower_in id l = Some br ->
  S (List.length (filter (fun x => negb (Borrower.borrower_id x =? id)) l))
  = List.length l.
Proof.
  unfold find_borrower_in. induction l as [|b r IH]; cbn; [discriminate|].
  intros Hnd. inversion Hnd as [|k ks Hnotin Hnd']; subst.
  destruct (Z.eqb_spec (Borrower.borrower_id b) id) as [E|E]; cbn.
  - intros _. rewrite filter_out_absent; [reflexivity|]. now rewrite <- E.
  - intros H. now rewrite (IH Hnd' H).
Qed.

Lemma find_borrower_in_In id l br :
  find_borrower_in id l = Some br -> In br l.
Proof. intros H. now apply find_some in H. Qed.

(** X3: in a store reached without a negative [add_book], neither
    [issue_book] nor [return_book], whatever it answers, changes the sum of
    the copies on the shelves and the loans outstanding, nor the number of
    books or of members: a loan moves one copy from the first count to the
    second, a return moves it back. *)
Theorem loans_and_copies_balance rs o w r w' :
  session no_negative_add default_data rs (storage w) ->
  o = IssueBook \/ o = ReturnBook ->
  run_op o w = (r, w') ->
  total_copies (statistics_of (storage w'))
    + active_borrowers (statistics_of (storage w'))
  = total_copies (statistics_of (storage w))
    + active_borrowers (statistics_of (storage w)) /\
  total_books (statistics_of (storage w')) = total_books (statistics_of (storage w)) /\
  total_members (statistics_of (storage w')) = total_members (statistics_of (storage w)).
Proof.
  intros Hs Ho Hrun.
  assert (Hids : ids_in_order (storage w)).
  { eapply (session_keeps ids_in_order);
      eauto using store_step_ids_in_order, default_ids_in_order. }
  assert (Hlinks : loans_linked (storage w)).
  { eapply (session_keeps loans_linked); eauto using store_step_loans_linked.
    constructor. }
  assert (Hnonneg : copies_nonneg (storage w)).
  { eapply session_copies_nonneg; [exact Hs | constructor]. }
  cbn [total_copies active_borrowers total_books total_members statistics_of].
  destruct Ho as [-> | ->]; cbn [run_op] in Hrun; apply bind_ret_inv in Hrun;
    destruct Hrun as (r0 & H & _).
  - destruct (issue_book_effect _ _ _ H) as [(E & _) | [(E & _) | Hiss]].
    + now rewrite E.
    + rewrite E. now cbn.
    + destruct Hiss as (l1 & name & addr & phone & l2 & rest & card_no & card &
                        book_id & book & d & _ & _ & _ & _ & Hb & Hpos & _ & _ &
                        _ & _ & E).
      rewrite E. cbn [books borrowers library_cards].
      rewrite (sum_copies_update_found _ _ _ _ Hb), length_update_found.
      rewrite change_copies_max, length_app. cbn. repeat split. lia.
  - destruct (return_book_effect _ _ _ H)
      as [(E & _) | (line & rest & id & br & _ & _ & Hbr & _ & _ & E)].
    + now rewrite E.
    + rewrite E. cbn [books borrowers library_cards].
      destruct Hids as (_ & _ & _ & Hnd).
      pose proof (length_filter_out_found _ _ _ Hnd Hbr) as Hlen.
      unfold loans_linked in Hlinks. rewrite Forall_forall in Hlinks.
      destruct (Hlinks br (find_borrower_in_In _ _ _ Hbr))
        as (_ & book & Hbook & _).
      unfold copies_nonneg in Hnonneg. rewrite Forall_forall in Hnonneg.
      pose proof (Hnonneg book (find_book_in_In _ _ _ Hbook)) as Hc.
      cbv beta in Hc.
      rewrite (sum_copies_update_found _ _ _ _ Hbook), length_update_found.
      rewrite change_copies_max. cbn. repeat split. lia.
Qed.

Lemma loans_and_copies_balance_witness :
  let w := world_of loaned_library ["1"] (Calendar.mkdate 2024 1 12) in
  let w' := snd (run_op ReturnBook w) in
  total_copies (statistics_of (storage w'))
    + active_borrowers (statistics_of (storage w'))
  = total_copies (statistics_of loaned_library)
    + active_borrowers (statistics_of loaned_library) /\
  total_books (statistics_of (storage w')) = total_books (statistics_of loaned_library) /\
  total_members (statistics_of (storage w')) = total_members (statistics_of loaned_library).
Proof.
  intros w w'.
  apply (loans_and_copies_balance _ ReturnBook w (fst (run_op ReturnBook w)) w'
           loaned_library_session).
  - right; reflexivity.
  - reflexivity.
Defined.

(** ** The backing file *)

(** Follow every path, the ones inside [update_book_copies] included. *)
Ltac run_all_in H :=
  unfold update_book_copies in H; run_in H.

(** After an operation that announces a change, a writable file holds the
    document. *)
Lemma run_op_saved o w r w' :
  run_op o w = (Ok r, w') ->
  writable w = true ->
  announces_change r = true ->
  disk w' = Holds (Json.of_data (storage w')).
Proof.
  intros H Hw Hr.
  destruct o; cbn [run_op] in H; apply bind_ret_inv in H;
    destruct H as ([x|e] & H & [= ->]); cbn [announces_change] in Hr.
  - unfold add_book in H. run_all_in H; injection H as <- <-;
      first [discriminate | congruence | reflexivity].
  - unfold issue_card in H. run_all_in H; injection H as <- <-;
      first [discriminate | congruence | reflexivity].
  - unfold issue_book in H. run_all_in H; injection H as <- <-;
      first [discriminate | congruence | reflexivity].
  - unfold return_book in H. run_all_in H; injection H as <- <-;
      first [discriminate | congruence | reflexivity].
  - discriminate.
  - run_all_in H; injection H as <- <-;
      first [discriminate | congruence | reflexivity].
Qed.

(** X4: when an operation announces a change (a book added, a card
    issued, a book issued or returned, copies updated) and the file can be
    written, the file holds the whole document of that moment: loading it
    answers a JSON value that reads back as exactly the document in
    memory. *)
Theorem announced_change_is_on_disk o w r w' :
  run_op o w = (Ok r, w') ->
  writable w = true ->
  announces_change r = true ->
  exists j, load_data (disk w') = Ok j /\ Json.to_data j = Some (storage w').
Proof.
  intros H Hw Hr. exists (Json.of_data (storage w')). split.
  - now rewrite (run_op_saved _ _ _ _ H Hw Hr).
  - apply to_data_of_data.
Qed.

Lemma announced_change_is_on_disk_witness :
  let w := world_of small_library ["1"; "Alice"; "Oak St"; "555"; "1"]
                    (Calendar.mkdate 2024 1 10) in
  exists j, load_data (disk (snd (run_op IssueBook w))) = Ok j /\
            Json.to_data j = Some (storage (snd (run_op IssueBook w))).
Proof.
  intros w.
  apply (announced_change_is_on_disk IssueBook w
           (Said (BookIssued 1 "Dune" "2024-01-24")) (snd (run_op IssueBook w)));
    reflexivity.
Defined.

(** When the write fails, an operation leaves the file as it was or
    leaves it emptied. *)
Lemma run_op_failed_write o w r w' :
  run_op o w = (r, w') -> writable w = false ->
  (opens w = false -> disk w' = disk w) /\
  (disk w' = disk w \/ disk w' = Unreadable JSONDecodeError).
Proof.
  intros H Hw.
  destruct o; cbn [run_op] in H; apply bind_ret_inv in H;
    destruct H as (r0 & H & _).
  - unfold add_book in H. run_all_in H; injection H as <- <-;
      first [congruence | split; [intros; first [congruence | reflexivity] | auto]].
  - unfold issue_card in H. run_all_in H; injection H as <- <-;
      first [congruence | split; [intros; first [congruence | reflexivity] | auto]].
  - unfold issue_book in H. run_all_in H; injection H as <- <-;
      first [congruence | split; [intros; first [congruence | reflexivity] | auto]].
  - unfold return_book in H. run_all_in H; injection H as <- <-;
      first [congruence | split; [intros; first [congruence | reflexivity] | auto]].
  - unfold search_books in H. run_all_in H; injection H as <- <-;
      first [congruence | split; [intros; first [congruence | reflexivity] | auto]].
  - run_all_in H; injection H as <- <-;
      first [congruence | split; [intros; first [congruence | reflexivity] | auto]].
Qed.

(** X5: a failed write is swallowed.  When the file cannot be written,
    [add_book] with a readable number of copies still announces the new
    book and keeps it in memory.  If the write failed at the open, the file
    is as it was; if it failed after the open, the file is left emptied,
    and [load_data] on it answers the default structure: the next start
    finds an empty library.  No operation leaves the file in any other
    condition, and none answers an error for it. *)
Theorem failed_write_goes_unnoticed w t a g c rest n :
  writable w = false ->
  stdin w = t :: a :: g :: c :: rest ->
  PyStr.parse_int c = Some n ->
  (exists w',
      add_book w = (Ok (BookAdded (next_book_id (storage w))), w') /\
      books (storage w') =
        (books (storage w) ++
           [Book.mk (next_book_id (storage w)) (PyStr.strip t) (PyStr.strip a)
                    (PyStr.strip g) n])%list /\
      (opens w = false -> disk w' = disk w) /\
      (opens w = true ->
       disk w' = Unreadable JSONDecodeError /\
       load_data (disk w') = Ok default_document)) /\
  (forall o r w',
      run_op o w = (r, w') ->
      disk w' = disk w \/ load_data (disk w') = Ok default_document).
Proof.
  intros Hw Hin Hc. split.
  - unfold add_book. run_with. rewrite Hw. cbv beta iota.
    destruct (opens w); eexists; (split; [reflexivity|]); world_simpl;
      repeat split; intros; first [discriminate | reflexivity].
  - intros o r w' H.
    destruct (run_op_failed_write _ _ _ _ H Hw) as (_ & [E | E]);
      [now left | right; now rewrite E].
Qed.

Lemma failed_write_goes_unnoticed_witness :
  let w := mkWorld small_library ["Emma"; "Austen"; "Novel"; "3"]
                   (Calendar.mkdate 2024 1 10)
                   (Holds (Json.of_data small_library)) false true in
  (exists w',
      add_book w = (Ok (BookAdded 2), w') /\
      books (storage w') = [dune; Book.mk 2 "Emma" "Austen" "Novel" 3] /\
      (true = false -> disk w' = Holds (Json.of_data small_library)) /\
      (true = true ->
       disk w' = Unreadable JSONDecodeError /\
       load_data (disk w') = Ok default_document)) /\
  (forall o r w',
      run_op o w = (r, w') ->
      disk w' = Holds (Json.of_data small_library) \/
      load_data (disk w') = Ok default_document).
Proof.
  intros w.
  apply (failed_write_goes_unnoticed w "Emma" "Austen" "Novel" "3" [] 3);
    reflexivity.
Defined.

(** ** issue_card *)

(** X6: [issue_card] with a subscription text that reads as an integer
    announces the number the card counter held, appends the card with the
    trimmed name and branch and the date of the day, and advances the
    counter; with a text that does not read as an integer it answers
    "invalid input" and leaves the document as it was, the counter
    included; and when the input ends before the third line, [EOFError]
    leaves the method (it has no handler for it) and the document is
    untouched. *)
Theorem issue_card_cases w :
  (forall name branch line rest n,
      stdin w = name :: branch :: line :: rest ->
      PyStr.parse_int line = Some n ->
      exists w',
        issue_card w = (Ok (CardIssued (next_card_no (storage w))), w') /\
        storage w' =
          mkData (books (storage w))
                 (library_cards (storage w) ++
                    [LibraryCard.mk (next_card_no (storage w)) (PyStr.strip name)
                                    (PyStr.strip branch) n
                                    (Calendar.strftime (today w))])
                 (borrowers (storage w))
                 (next_book_id (storage w)) (next_card_no (storage w) + 1)
                 (next_borrower_id (storage w))) /\
  (forall name branch line rest,
      stdin w = name :: branch :: line :: rest ->
      PyStr.parse_int line = None ->
      issue_card w = (Ok InvalidInput, set_stdin rest w)) /\
  ((List.length (stdin w) < 3)%nat ->
   exists w',
     issue_card w = (Raise EOFError, w') /\
     storage w' = storage w /\ stdin w' = []).
Proof.
  split; [|split].
  - intros name branch line rest n Hin Hn. unfold issue_card. run_with.
    destruct (writable w), (opens w); eexists; split; reflexivity.
  - intros name branch line rest Hin Hn. unfold issue_card. run_with.
    reflexivity.
  - intros Hlen. unfold issue_card.
    destruct (stdin w) as [|l1 [|l2 [|l3 r]]] eqn:Hin; cbn in Hlen; try lia;
      run_with; eexists; repeat split; assumption.
Qed.

Lemma issue_card_cases_witness :
  let now := Calendar.mkdate 2024 1 10 in
  (exists w',
      issue_card (world_of small_library [" Bob "; "North"; "12"] now)
        = (Ok (CardIssued 2), w') /\
      storage w' =
        mkData [dune] [alice; LibraryCard.mk 2 "Bob" "North" 12 "2024-01-10"] [] 2 3 1) /\
  issue_card (world_of small_library ["Bob"; "North"; "a year"] now)
    = (Ok InvalidInput, world_of small_library [] now) /\
  (exists w',
      issue_card (world_of small_library ["Bob"; "North"] now) = (Raise EOFError, w') /\
      storage w' = small_library /\ stdin w' = []).
Proof.
  intros now. split; [|split].
  - apply (proj1 (issue_card_cases (world_of small_library [" Bob "; "North"; "12"] now))
                 " Bob " "North" "12" [] 12); reflexivity.
  - apply (proj1 (proj2 (issue_card_cases
                           (world_of small_library ["Bob"; "North"; "a year"] now)))
                 "Bob" "North" "a year" []); reflexivity.
  - apply (proj2 (proj2 (issue_card_cases (world_of small_library ["Bob"; "North"] now)))).
    cbn. lia.
Defined.

(** ** return_book *)

Lemma return_book_not_found w line rest id :
  stdin w = line :: rest ->
  PyStr.parse_int line = Some id ->
  find_borrower_in id (borrowers (storage w)) = None ->
  return_book w = (Ok BorrowerNotFound, set_stdin rest w).
Proof.
  intros Hin Hc Hf. unfold return_book. run_with. reflexivity.
Qed.

(** X7: [return_book] answers "borrower not found" when no record has the
    id, and "invalid input" when the text is not an integer; in both cases
    the document is what it was. *)
Theorem return_book_refusals w line rest :
  stdin w = line :: rest ->
  (forall id,
      PyStr.parse_int line = Some id ->
      (forall br, In br (borrowers (storage w)) -> Borrower.borrower_id br <> id) ->
      return_book w = (Ok BorrowerNotFound, set_stdin rest w)) /\
  (PyStr.parse_int line = None ->
   return_book w = (Ok InvalidInput, set_stdin rest w)).
Proof.
  intros Hin. split.
  - intros id Hc Hnone. apply return_book_not_found with (line := line) (id := id);
      auto.
    destruct (find_borrower_in id (borrowers (storage w))) as [br|] eqn:E;
      [|reflexivity].
    exfalso. unfold find_borrower_in in E. apply find_some in E.
    destruct E as (Hbr & Hid). apply (Hnone br Hbr). lia.
  - intros Hc. unfold return_book. run_with. reflexivity.
Qed.

Lemma return_book_refusals_witness :
  let now := Calendar.mkdate 2024 1 12 in
  return_book (world_of loaned_library ["7"] now)
    = (Ok BorrowerNotFound, world_of loaned_library [] now) /\
  return_book (world_of loaned_library ["one"] now)
    = (Ok InvalidInput, world_of loaned_library [] now).
Proof.
  intros now. split.
  - apply (proj1 (return_book_refusals (world_of loaned_library ["7"] now) "7" [] eq_refl)
                 7 eq_refl).
    intros br [<- | []]. discriminate.
  - apply (proj2 (return_book_refusals (world_of loaned_library ["one"] now)
                    "one" [] eq_refl)).
    reflexivity.
Defined.

Lemma find_borrower_in_filtered id l :
  find_borrower_in id (filter (fun x => negb (Borrower.borrower_id x =? id)) l) = None.
Proof.
  unfold find_borrower_in. induction l as [|b r IH]; cbn; [reflexivity|].
  destruct (Borrower.borrower_id b =? id) eqn:E; cbn; [exact IH|].
  now rewrite E.
Qed.

(** X8: a loan can be returned once.  After [return_book] has announced
    the return of an id, in any store at all, a second [return_book] of
    the same id answers "borrower not found" and changes nothing. *)
Theorem return_book_twice w title w1 line id line' rest' :
  stdin w = line :: line' :: rest' ->
  PyStr.parse_int line = Some id ->
  PyStr.parse_int line' = Some id ->
  return_book w = (Ok (BookReturned title), w1) ->
  return_book w1 = (Ok BorrowerNotFound, set_stdin rest' w1).
Proof.
  intros Hin Hc Hc' H.
  destruct (return_book_effect _ _ _ H)
    as [(_ & Hno) | (l & r & id0 & br & Hin0 & Hc0 & _ & _ & Hrest & Hs)].
  - now contradiction (Hno title).
  - rewrite Hin in Hin0. injection Hin0 as <- <-.
    rewrite Hc in Hc0. injection Hc0 as <-.
    apply return_book_not_found with (line := line') (id := id); auto.
    rewrite Hs. cbn [borrowers]. apply find_borrower_in_filtered.
Qed.

Lemma return_book_twice_witness :
  let w := world_of loaned_library ["1"; " 1"] (Calendar.mkdate 2024 1 12) in
  return_book (snd (return_book w))
  = (Ok BorrowerNotFound, set_stdin [] (snd (return_book w))).
Proof.
  intros w.
  apply (return_book_twice w "Dune" (snd (return_book w)) "1" 1 " 1" []);
    reflexivity.
Defined.

(** ** add_book and find_book *)

Lemma find_book_in_snoc_new id l book :
  Forall (fun b => Book.book_id b <> id) l ->
  Book.book_id book = id ->
  find_book_in id (l ++ [book]) = Some book.
Proof.
  intros Hl Hb. unfold find_book_in.
  induction Hl as [|x r Hx Hr IH]; cbn.
  - now rewrite Hb, Z.eqb_refl.
  - destruct (Z.eqb_spec (Book.book_id x) id); [contradiction | exact IH].
Qed.

(** X9: in a reachable store, the book that [add_book] announces is the
    book [find_book] returns for the announced id, with the trimmed title,
    author and genre and the copies that were read; and every book found
    before is found as before. *)
Theorem add_book_then_find w t a g c rest n w' id :
  reachable (storage w) ->
  stdin w = t :: a :: g :: c :: rest ->
  PyStr.parse_int c = Some n ->
  add_book w = (Ok (BookAdded id), w') ->
  find_book id w' =
    (Ok (Some (Book.mk id (PyStr.strip t) (PyStr.strip a) (PyStr.strip g) n)), w') /\
  (forall other book,
      find_book_in other (books (storage w)) = Some book ->
      find_book_in other (books (storage w')) = Some book).
Proof.
  intros Hreach Hin Hc H.
  destruct (add_book_added w t a g c rest n Hin Hc) as (w2 & Hrun & _ & Hs).
  rewrite Hrun in H. injection H as <- <-.
  destruct Hreach as (rs & Hsession).
  destruct (session_ids_in_order _ _ _ Hsession) as ((Hbelow & _) & _).
  unfold find_book, gets. rewrite Hs. cbn [books]. split.
  - rewrite find_book_in_snoc_new; [reflexivity | | reflexivity].
    eapply Forall_impl; [|exact Hbelow]. cbv beta. intros; lia.
  - intros other book. apply find_book_in_snoc.
Qed.

Lemma add_book_then_find_witness :
  let w := world_of loaned_library [" Emma"; "Austen "; "Novel"; "3"]
                    (Calendar.mkdate 2024 1 12) in
  let w' := snd (add_book w) in
  find_book 2 w' = (Ok (Some (Book.mk 2 "Emma" "Austen" "Novel" 3)), w') /\
  (forall other book,
      find_book_in other (books loaned_library) = Some book ->
      find_book_in other (books (storage w')) = Some book).
Proof.
  intros w w'.
  apply (add_book_then_find w " Emma" "Austen " "Novel" "3" [] 3 w' 2
           loaned_library_reachable); reflexivity.
Defined.

(** ** Exceptions that leave an operation *)

(** X10: the only exception that leaves an operation is [EOFError], and
    it does so only when the input runs out (fewer than five lines were
    left, and none is left after); [add_book] and [update_book_copies] let
    no exception out at all.  A [ValueError] never leaves. *)
Theorem only_eof_escapes o w e w' :
  run_op o w = (Raise e, w') ->
  e = EOFError /\ (List.length (stdin w) < 5)%nat /\ stdin w' = [] /\
  o <> AddBook /\ (forall id change, o <> UpdateCopies id change).
Proof.
  intros H.
  destruct o; cbn [run_op] in H; apply bind_ret_inv in H;
    destruct H as ([x|e0] & H & [= <-]).
  - exfalso. unfold add_book in H. run_all_in H; discriminate.
  - unfold issue_card in H. run_all_in H; injection H as <- <-;
      repeat split; try discriminate;
      try (world_simpl; assumption); cbn; lia.
  - unfold issue_book in H. run_all_in H; injection H as <- <-;
      repeat split; try discriminate;
      try (world_simpl; assumption); cbn; lia.
  - unfold return_book in H. run_all_in H; injection H as <- <-;
      repeat split; try discriminate;
      try (world_simpl; assumption); cbn; lia.
  - unfold search_books in H. run_all_in H; injection H as <- <-;
      repeat split; try discriminate;
      try (world_simpl; assumption); cbn; lia.
  - exfalso. run_all_in H; discriminate.
Qed.

Lemma only_eof_escapes_witness :
  EOFError = EOFError /\ (2 < 5)%nat /\
  stdin (snd (run_op IssueBook (world_of small_library ["1"; "Bob"]
                                         (Calendar.mkdate 2024 1 10)))) = [] /\
  IssueBook <> AddBook /\ (forall id change, IssueBook <> UpdateCopies id change).
Proof.
  apply (only_eof_escapes IssueBook
           (world_of small_library ["1"; "Bob"] (Calendar.mkdate 2024 1 10))
           EOFError
           (snd (run_op IssueBook (world_of small_library ["1"; "Bob"]
                                            (Calendar.mkdate 2024 1 10))))).
  reflexivity.
Defined.

(** ** issue_book: the loan and the day of the month *)

Lemma replace_day_within_month d :
  1 <= Calendar.day d ->
  Calendar.day d + 14 <= Calendar.days_in_month (Calendar.year d) (Calendar.month d) ->
  Calendar.replace_day d (Calendar.day d + 14) =
  Some (Calendar.mkdate (Calendar.year d) (Calendar.month d) (Calendar.day d + 14)).
Proof.
  intros H1 H2. unfold Calendar.replace_day.
  destruct (Z.leb_spec 1 (Calendar.day d + 14)); [|lia].
  destruct (Z.leb_spec (Calendar.day d + 14)
              (Calendar.days_in_month (Calendar.year d) (Calendar.month d)));
    [reflexivity | lia].
Qed.

(** X11: with a card that exists, a book that exists and has a copy left,
    on a day of the month that is at most the length of the month less 14,
    [issue_book] announces the loan under the id the borrower counter
    held and the date 14 calendar days later, appends the record (trimmed
    name, address and phone, the title of the book, the date of the day
    and the due date), advances the counter and leaves the book with one
    copy less. *)
Theorem issue_book_records_loan w l1 name addr phone l2 rest card_no card book_id book :
  stdin w = l1 :: name :: addr :: phone :: l2 :: rest ->
  PyStr.parse_int l1 = Some card_no ->
  find_card_in card_no (library_cards (storage w)) = Some card ->
  PyStr.parse_int l2 = Some book_id ->
  find_book_in book_id (books (storage w)) = Some book ->
  0 < Book.copies book ->
  Calendar.valid (today w) ->
  Calendar.day (today w) + 14
    <= Calendar.days_in_month (Calendar.year (today w)) (Calendar.month (today w)) ->
  let due := Calendar.strftime (Calendar.add_days 14 (today w)) in
  exists w',
    issue_book w =
      (Ok (BookIssued (next_borrower_id (storage w)) (Book.title book) due), w') /\
    borrowers (storage w') =
      (borrowers (storage w) ++
         [Borrower.mk (next_borrower_id (storage w)) card_no (PyStr.strip name)
                      (PyStr.strip addr) (PyStr.strip phone) book_id
                      (Book.title book) (Calendar.strftime (today w)) due])%list /\
    next_borrower_id (storage w') = next_borrower_id (storage w) + 1 /\
    find_book_in book_id (books (storage w')) =
      Some (Book.set_copies (Book.copies book - 1) book) /\
    library_cards (storage w') = library_cards (storage w).
Proof.
  intros Hin Hc Hf Hb Hfb Hpos (_ & _ & Hday & _) Hfits due.
  assert (Hle : (Book.copies book <=? 0) = false) by now apply Z.leb_gt.
  pose proof (replace_day_within_month (today w) Hday Hfits) as Hr.
  assert (Hdue : Calendar.add_days 14 (today w) =
                 Calendar.mkdate (Calendar.year (today w)) (Calendar.month (today w))
                                 (Calendar.day (today w) + 14)).
  { symmetry. now apply replace_day_is_add_days. }
  unfold due. rewrite Hdue.
  unfold issue_book. run_with.
  match goal with
  | |- context [update_book_copies ?i ?c ?W] =>
      destruct (update_book_copies_storage i c W) as (b & wu & Eu & Es & Ei & Et);
      rewrite Eu
  end.
  world_simpl. cbv beta iota.
  destruct (writable wu), (opens wu); eexists; (split; [reflexivity|]); world_simpl;
    rewrite Es; world_simpl; repeat split;
    rewrite (find_update_found _ _ _ _ (change_copies_book_id (-1)) Hfb),
      change_copies_max; do 2 f_equal; lia.
Qed.

Lemma issue_book_records_loan_witness :
  let w := world_of small_library ["1"; "Alice"; "Oak St"; "555"; "1"]
                    (Calendar.mkdate 2024 1 10) in
  exists w',
    issue_book w = (Ok (BookIssued 1 "Dune" "2024-01-24"), w') /\
    borrowers (storage w') = [dune_loan] /\
    next_borrower_id (storage w') = 2 /\
    find_book_in 1 (books (storage w')) = Some (Book.set_copies 1 dune) /\
    library_cards (storage w') = [alice].
Proof.
  intros w.
  apply (issue_book_records_loan w "1" "Alice" "Oak St" "555" "1" [] 1 alice 1 dune);
    try reflexivity.
  - unfold Calendar.valid. cbn. lia.
  - cbn. lia.
Defined.

(** X12: with the same card and book, on any day of the month later than
    the length of the month less 14, [issue_book] answers "invalid input":
    no loan is recorded and no copy is taken, but the id the borrower
    counter held is used up. *)
Theorem issue_book_late_in_month w l1 name addr phone l2 rest card_no card book_id book :
  stdin w = l1 :: name :: addr :: phone :: l2 :: rest ->
  PyStr.parse_int l1 = Some card_no ->
  find_card_in card_no (library_cards (storage w)) = Some card ->
  PyStr.parse_int l2 = Some book_id ->
  find_book_in book_id (books (storage w)) = Some book ->
  0 < Book.copies book ->
  Calendar.days_in_month (Calendar.year (today w)) (Calendar.month (today w))
    < Calendar.day (today w) + 14 ->
  exists w',
    issue_book w = (Ok InvalidInput, w') /\
    borrowers (storage w') = borrowers (storage w) /\
    books (storage w') = books (storage w) /\
    next_borrower_id (storage w') = next_borrower_id (storage w) + 1.
Proof.
  intros Hin Hc Hf Hb Hfb Hpos Hlate.
  eexists. split.
  - eapply issue_book_replace_fails; eassumption.
  - repeat split.
Qed.

Lemma issue_book_late_in_month_witness :
  let w := world_of small_library ["1"; "Alice"; "Oak St"; "555"; "1"]
                    (Calendar.mkdate 2023 2 15) in
  exists w',
    issue_book w = (Ok InvalidInput, w') /\
    borrowers (storage w') = [] /\
    books (storage w') = [dune] /\
    next_borrower_id (storage w') = 2.
Proof.
  intros w.
  apply (issue_book_late_in_month w "1" "Alice" "Oak St" "555" "1" [] 1 alice 1 dune);
    reflexivity.
Defined.

(** ** search_books with nothing to search for *)

Lemma contains_empty s : PyStr.contains EmptyString s = true.
Proof. now destruct s. Qed.

Lemma filter_all {A} (p : A -> bool) l :
  (forall a, p a = true) -> filter p l = l.
Proof.
  intros H. induction l as [|a r IH]; cbn; [reflexivity|].
  now rewrite H, IH.
Qed.

(** X13: a keyword that is empty or made of blanks only selects every
    book: [search_books] then answers the whole list of books. *)
Theorem search_books_blank_keyword w line rest :
  stdin w = line :: rest ->
  PyStr.strip line = EmptyString ->
  search_books w = (Ok (books (storage w)), set_stdin rest w).
Proof.
  intros Hin Hblank. unfold search_books, bind, input, gets.
  rewrite Hin, Hblank. cbn [PyStr.lower storage set_stdin].
  rewrite filter_all; [reflexivity|].
  intros book. unfold book_matches. now rewrite contains_empty.
Qed.

Lemma search_books_blank_keyword_witness :
  let w := world_of (mkData [dune; sold_out] [alice] [] 3 2 1) ["   "]
                    (Calendar.mkdate 2024 1 10) in
  search_books w = (Ok [dune; sold_out], set_stdin [] w).
Proof.
  intros w. apply (search_books_blank_keyword w "   " []); reflexivity.
Defined.

(** ** show_statistics *)

Lemma available_at_most_sum l :
  Forall (fun book => 0 <= Book.copies book) l ->
  Z.of_nat (List.length (filter (fun book => 0 <? Book.copies book) l))
  <= sum_copies l.
Proof.
  induction 1 as [|b r Hb Hr IH]; [now cbn|].
  rewrite sum_copies_cons. cbn [filter].
  destruct (Z.ltb_spec 0 (Book.copies b)); cbn [List.length]; lia.
Qed.

(** X14: [show_statistics] changes nothing, and its numbers are
    consistent: the books are counted, the available books are at most
    the books, the active borrowers and the members are the lengths of
    their collections; and when no book has negative copies, the
    available books are at most the total of the copies. *)
Theorem show_statistics_consistent w :
  exists s,
    show_statistics w = (Ok s, w) /\
    total_books s = Z.of_nat (List.length (books (storage w))) /\
    0 <= available_books s <= total_books s /\
    active_borrowers s = Z.of_nat (List.length (borrowers (storage w))) /\
    total_members s = Z.of_nat (List.length (library_cards (storage w))) /\
    (copies_nonneg (storage w) -> available_books s <= total_copies s).
Proof.
  exists (statistics_of (storage w)).
  split; [reflexivity|]. cbn. repeat split.
  - lia.
  - apply inj_le. apply filter_length_le.
  - intros Hnonneg. now apply available_at_most_sum.
Qed.

Lemma show_statistics_consistent_witness :
  let w := world_of loaned_library [] (Calendar.mkdate 2024 1 12) in
  copies_nonneg loaned_library /\
  exists s,
    show_statistics w = (Ok s, w) /\
    total_books s = 1 /\
    0 <= available_books s <= total_books s /\
    active_borrowers s = 1 /\
    total_members s = 1 /\
    (copies_nonneg loaned_library -> available_books s <= total_copies s).
Proof.
  intros w. split.
  - repeat constructor. cbn. lia.
  - exact (show_statistics_consistent w).
Defined.

(** ** The menu loop *)

Ltac shrinks :=
  world_simpl;
  repeat match goal with E : stdin _ = _ |- _ => rewrite E end;
  cbn; lia.

Lemma run_op_stdin_shrinks o w r w' :
  run_op o w = (r, w') ->
  (List.length (stdin w') <= List.length (stdin w))%nat.
Proof.
  intros H.
  destruct o; cbn [run_op] in H; apply bind_ret_inv in H;
    destruct H as (r0 & H & _).
  - unfold add_book in H. run_all_in H; injection H as <- <-;
      shrinks.
  - unfold issue_card in H. run_all_in H; injection H as <- <-;
      shrinks.
  - unfold issue_book in H. run_all_in H; injection H as <- <-;
      shrinks.
  - unfold return_book in H. run_all_in H; injection H as <- <-;
      shrinks.
  - unfold search_books in H. run_all_in H; injection H as <- <-;
      shrinks.
  - run_all_in H; injection H as <- <-; shrinks.
Qed.

Lemma session_app allowed d1 rs1 d2 rs2 d3 :
  session allowed d1 rs1 d2 -> session allowed d2 rs2 d3 ->
  session allowed d1 (rs1 ++ rs2) d3.
Proof.
  induction 1; cbn; [easy|]. intros H3. econstructor; eauto.
Qed.

(** A turn that runs the operation [o] after the line of the choice. *)
Lemma turn_runs_op o line rest w r w' :
  stdin w = line :: rest ->
  run_op o (set_stdin rest w) = (r, w') ->
  (List.length (stdin w') < List.length (stdin w))%nat /\
  exists rs, session any_world (storage w) rs (storage w').
Proof.
  intros Hin Hrun. split.
  - apply run_op_stdin_shrinks in Hrun. rewrite Hin. cbn in *. lia.
  - exists [r].
    change (storage w) with (storage (set_stdin rest w)).
    econstructor; [exact I | exact Hrun | constructor].
Qed.

(** One turn on a line of input: it lets no exception out, uses up the
    line, and moves the document as some operation would, if at all. *)
Lemma menu_turn_on_line w line rest :
  stdin w = line :: rest ->
  exists x w',
    menu_turn w = (Ok x, w') /\
    (List.length (stdin w') < List.length (stdin w))%nat /\
    exists rs, session any_world (storage w) rs (storage w').
Proof.
  intros Hin. unfold menu_turn, try_except. unfold bind at 1, input.
  rewrite Hin. cbv beta iota.
  assert (Hstay : (List.length (stdin (set_stdin rest w)) < List.length (stdin w))%nat /\
                  exists rs, session any_world (storage w) rs (storage (set_stdin rest w))).
  { split; [rewrite Hin; cbn; lia|]. exists []. constructor. }
  repeat match goal with
         | |- context [if String.eqb ?a ?b then _ else _] =>
             destruct (String.eqb a b)
         end.
  - destruct (run_op AddBook (set_stdin rest w)) as [r w'] eqn:E.
    pose proof (turn_runs_op _ _ _ _ _ _ Hin E) as Hturn.
    cbn [run_op] in E. unfold bind, ret in *.
    destruct (add_book (set_stdin rest w)) as [[x|e] w2];
      injection E as <- <-; do 2 eexists; (split; [reflexivity|]);
      rewrite <- Hin; exact Hturn.
  - unfold list_books, bind, gets, ret. do 2 eexists; (split; [reflexivity|]).
    rewrite <- Hin; exact Hstay.
  - destruct (run_op SearchBooks (set_stdin rest w)) as [r w'] eqn:E.
    pose proof (turn_runs_op _ _ _ _ _ _ Hin E) as Hturn.
    cbn [run_op] in E. unfold bind, ret in *.
    destruct (search_books (set_stdin rest w)) as [[x|e] w2];
      injection E as <- <-; do 2 eexists; (split; [reflexivity|]);
      rewrite <- Hin; exact Hturn.
  - destruct (run_op IssueCard (set_stdin rest w)) as [r w'] eqn:E.
    pose proof (turn_runs_op _ _ _ _ _ _ Hin E) as Hturn.
    cbn [run_op] in E. unfold bind, ret in *.
    destruct (issue_card (set_stdin rest w)) as [[x|e] w2];
      injection E as <- <-; do 2 eexists; (split; [reflexivity|]);
      rewrite <- Hin; exact Hturn.
  - destruct (run_op IssueBook (set_stdin rest w)) as [r w'] eqn:E.
    pose proof (turn_runs_op _ _ _ _ _ _ Hin E) as Hturn.
    cbn [run_op] in E. unfold bind, ret in *.
    destruct (issue_book (set_stdin rest w)) as [[x|e] w2];
      injection E as <- <-; do 2 eexists; (split; [reflexivity|]);
      rewrite <- Hin; exact Hturn.
  - destruct (run_op ReturnBook (set_stdin rest w)) as [r w'] eqn:E.
    pose proof (turn_runs_op _ _ _ _ _ _ Hin E) as Hturn.
    cbn [run_op] in E. unfold bind, ret in *.
    destruct (return_book (set_stdin rest w)) as [[x|e] w2];
      injection E as <- <-; do 2 eexists; (split; [reflexivity|]);
      rewrite <- Hin; exact Hturn.
  - unfold list_borrowers, bind, gets, ret. do 2 eexists; (split; [reflexivity|]).
    rewrite <- Hin; exact Hstay.
  - unfold show_statistics, bind, gets, ret. do 2 eexists; (split; [reflexivity|]).
    rewrite <- Hin; exact Hstay.
  - unfold ret. do 2 eexists; (split; [reflexivity|]).
    rewrite <- Hin; exact Hstay.
  - unfold ret. do 2 eexists; (split; [reflexivity|]).
    rewrite <- Hin; exact Hstay.
Qed.

Lemma menu_turn_exhausted w :
  stdin w = [] -> menu_turn w = (Ok (Some (Caught EOFError)), w).
Proof.
  intros Hin. unfold menu_turn, try_except. unfold bind at 1, input.
  now rewrite Hin.
Qed.

Lemma main_loop_exhausted w :
  stdin w = [] -> forall fuel, main_loop fuel w = None.
Proof.
  intros Hin fuel. induction fuel as [|k IH]; cbn; [reflexivity|].
  now rewrite (menu_turn_exhausted w Hin), IH.
Qed.

(** X15: once the input is used up the menu never ends: each turn meets
    [EOFError] at the prompt, the handler of the loop reports it, and the
    loop asks again; no number of turns reaches the end of [main]. *)
Theorem main_loop_spins_at_end_of_input w :
  stdin w = [] ->
  menu_turn w = (Ok (Some (Caught EOFError)), w) /\
  forall fuel, main_loop fuel w = None.
Proof.
  intros Hin. split.
  - now apply menu_turn_exhausted.
  - now apply main_loop_exhausted.
Qed.

Lemma main_loop_spins_at_end_of_input_witness :
  let w := world_of small_library [] (Calendar.mkdate 2024 1 10) in
  menu_turn w = (Ok (Some (Caught EOFError)), w) /\
  forall fuel, main_loop fuel w = None.
Proof.
  intros w. apply (main_loop_spins_at_end_of_input w). reflexivity.
Defined.

Lemma main_loop_leaves_or_spins_by_length n :
  forall w, (List.length (stdin w) <= n)%nat ->
    (exists ts w',
        forall fuel, (List.length (stdin w) < fuel)%nat ->
                     main_loop fuel w = Some (Ok ts, w')) \/
    (forall fuel, main_loop fuel w = None).
Proof.
  induction n as [|n IH]; intros w Hlen.
  - right. apply main_loop_exhausted.
    destruct (stdin w); [reflexivity | cbn in Hlen; lia].
  - destruct (stdin w) as [|line rest] eqn:Hin.
    + right. now apply main_loop_exhausted.
    + destruct (menu_turn_on_line w line rest Hin) as (x & w' & Hturn & Hshrink & _).
      rewrite Hin in Hshrink. cbn in Hlen, Hshrink.
      destruct x as [t|].
      * destruct (IH w' ltac:(lia)) as [(ts & w'' & Hleave) | Hspin].
        -- left. exists (t :: ts), w''. intros [|k] Hk; [cbn in Hk; lia|].
           cbn [main_loop]. rewrite Hturn, Hleave; [reflexivity|].
           cbn in Hk. lia.
        -- right. intros [|k]; [reflexivity|].
           cbn [main_loop]. now rewrite Hturn, Hspin.
      * left. exists [], w'. intros [|k] Hk; [cbn in Hk; lia|].
        cbn [main_loop]. now rewrite Hturn.
Qed.

Lemma menu_turn_ok w : exists x w', menu_turn w = (Ok x, w').
Proof.
  destruct (stdin w) as [|line rest] eqn:Hin.
  - rewrite (menu_turn_exhausted w Hin). eauto.
  - destruct (menu_turn_on_line w line rest Hin) as (x & w' & H & _). eauto.
Qed.

Lemma main_loop_never_raises fuel :
  forall w e w', main_loop fuel w <> Some (Raise e, w').
Proof.
  induction fuel as [|k IH]; intros w e w'; cbn [main_loop]; [discriminate|].
  destruct (menu_turn_ok w) as (x & w1 & ->).
  destruct x as [t|]; [|discriminate].
  destruct (main_loop k w1) as [[[ts|e1] w2]|] eqn:E; try discriminate.
  now contradiction (IH w1 e1 w2).
Qed.

(** X16: the menu loop either leaves, by choice 9, within as many turns
    as there are lines of input, or it never leaves; and no exception ever
    leaves it, whatever the operations meet. *)
Theorem main_loop_leaves_or_spins w :
  ((exists ts w',
       forall fuel, (List.length (stdin w) < fuel)%nat ->
                    main_loop fuel w = Some (Ok ts, w')) \/
   (forall fuel, main_loop fuel w = None)) /\
  (forall fuel e w', main_loop fuel w <> Some (Raise e, w')).
Proof.
  split.
  - now apply (main_loop_leaves_or_spins_by_length (List.length (stdin w))).
  - intros fuel. apply main_loop_never_raises.
Qed.

Lemma menu_turn_session w x w' :
  menu_turn w = (x, w') ->
  exists rs, session any_world (storage w) rs (storage w').
Proof.
  intros H. destruct (stdin w) as [|line rest] eqn:Hin.
  - rewrite (menu_turn_exhausted w Hin) in H. injection H as _ <-.
    exists []. constructor.
  - destruct (menu_turn_on_line w line rest Hin) as (x1 & w1 & H1 & _ & Hs).
    rewrite H1 in H. now injection H as _ <-.
Qed.

Lemma main_loop_session fuel :
  forall w r w',
    main_loop fuel w = Some (r, w') ->
    exists rs, session any_world (storage w) rs (storage w').
Proof.
  induction fuel as [|k IH]; intros w r w' H; cbn [main_loop] in H;
    [discriminate|].
  destruct (menu_turn w) as [[[t|]|e] w1] eqn:Hturn.
  - destruct (menu_turn_session _ _ _ Hturn) as (rs1 & Hs1).
    destruct (main_loop k w1) as [[r2 w2]|] eqn:E; [|discriminate].
    destruct (IH _ _ _ E) as (rs2 & Hs2).
    assert (w2 = w') as <- by (destruct r2; now injection H).
    exists (rs1 ++ rs2)%list. eapply session_app; eassumption.
  - injection H as _ <-. eapply menu_turn_session; eassumption.
  - injection H as _ <-. eapply menu_turn_session; eassumption.
Qed.

Lemma session_loans_linked allowed rs d :
  session allowed default_data rs d -> loans_linked d.
Proof.
  intros Hs.
  eapply (session_keeps loans_linked); eauto using store_step_loans_linked.
  constructor.
Qed.

(** The script of the spec's scenario, typed at the menu. *)
Example main_loop_scenario :
  main_loop 5
    (world_of default_data
       ["1"; "Dune"; "Herbert"; "SciFi"; "2";
        "4"; "Alice"; "Main"; "6";
        "5"; "1"; "Alice"; "Oak St"; "555"; "1";
        "0";
        "9"; "left over"]
       (Calendar.mkdate 2024 1 10))
  = Some (Ok [Did (Said (BookAdded 1)); Did (Said (CardIssued 1));
              Did (Said (BookIssued 1 "Dune" "2024-01-24")); InvalidChoice],
          mkWorld loaned_library ["left over"] (Calendar.mkdate 2024 1 10)
                  (Holds (Json.of_data loaned_library)) true true).
Proof. reflexivity. Qed.

(** X17: whatever is typed at the menu, the document the loop of [main]
    leaves is one a session of the operations reaches; started on a
    reachable document, it leaves a reachable one, in which every
    identifier is unique and below its counter and every loan is linked to
    its card and its book. *)
Theorem main_loop_keeps_store_sound fuel w r w' :
  reachable (storage w) ->
  main_loop fuel w = Some (r, w') ->
  reachable (storage w') /\ ids_in_order (storage w') /\ loans_linked (storage w').
Proof.
  intros (rs0 & Hs0) H.
  destruct (main_loop_session _ _ _ _ H) as (rs & Hs).
  pose proof (session_app _ _ _ _ _ _ Hs0 Hs) as Hall.
  split; [eexists; exact Hall|]. split.
  - eapply session_ids_in_order; exact Hall.
  - eapply session_loans_linked; exact Hall.
Qed.

Lemma main_loop_keeps_store_sound_witness :
  reachable loaned_library /\ ids_in_order loaned_library /\ loans_linked loaned_library.
Proof.
  apply (main_loop_keeps_store_sound 5
           (world_of default_data
              ["1"; "Dune"; "Herbert"; "SciFi"; "2";
               "4"; "Alice"; "Main"; "6";
               "5"; "1"; "Alice"; "Oak St"; "555"; "1";
               "0"; "9"; "left over"]
              (Calendar.mkdate 2024 1 10))
           (Ok [Did (Said (BookAdded 1)); Did (Said (CardIssued 1));
                Did (Said (BookIssued 1 "Dune" "2024-01-24")); InvalidChoice])
           (mkWorld loaned_library ["left over"] (Calendar.mkdate 2024 1 10)
                    (Holds (Json.of_data loaned_library)) true true)).
  - exists []. constructor.
  - reflexivity.
Defined.

Lemma main_loop_leaves_or_spins_witness :
  let w := world_of small_library ["3"; "dune"; "9"] (Calendar.mkdate 2024 1 10) in
  ((exists ts w',
       forall fuel, (3 < fuel)%nat -> main_loop fuel w = Some (Ok ts, w')) \/
   (forall fuel, main_loop fuel w = None)) /\
  (forall fuel e w', main_loop fuel w <> Some (Raise e, w')).
Proof.
  intros w. exact (main_loop_leaves_or_spins w).
Defined.
